(** * datadog-utilities: user provisioning and pending-invite report

    A shallow embedding of the two Lambda entry points of the repository,

    - [user-inveite-and-disable/src/app.py]  (module [Provisioning]),
    - [user-pending-check/src/app/lambda_function.py] (module [Pending]),

    and the properties of their batch loop, role cache, pagination and
    report rendering.

    Remote calls (Datadog, S3, Secrets Manager) are answered by an explicit
    world: a state type with a transition function from a call to a
    response.  Every function that talks to the outside threads the world
    and records the calls and log statements it performs, in order. *)

From Stdlib Require Import ZArith Ascii String.
From stdpp Require Import base option list strings gmap.

Local Open Scope string_scope.

(** ** Python strings

    [str.lower] and [str.strip] are Unicode-aware in Python, so the
    handlers are written against an interface; [ascii_str] implements it
    for strings of ASCII characters. *)

Class PyStr := {
  lower : string -> string;
  strip : string -> string;
  (** [urllib.parse.unquote_plus] *)
  unquote_plus : string -> string;
}.

Module Ascii_str.

Definition lower_ascii (c : ascii) : ascii :=
  let n := nat_of_ascii c in
  if (65 <=? n)%nat && (n <=? 90)%nat then ascii_of_nat (n + 32) else c.

Fixpoint lower (s : string) : string :=
  match s with
  | EmptyString => EmptyString
  | String c s' => String (lower_ascii c) (lower s')
  end.

(** The ASCII characters of [str.isspace]: tab, LF, VT, FF, CR,
    FS, GS, RS, US and space. *)
Definition is_space (c : ascii) : bool :=
  let n := nat_of_ascii c in
  ((9 <=? n)%nat && (n <=? 13)%nat) || ((28 <=? n)%nat && (n <=? 32)%nat).

Fixpoint lstrip (s : string) : string :=
  match s with
  | EmptyString => EmptyString
  | String c s' => if is_space c then lstrip s' else s
  end.

Fixpoint rstrip (s : string) : string :=
  match s with
  | EmptyString => EmptyString
  | String c s' =>
      match rstrip s' with
      | EmptyString => if is_space c then EmptyString else String c EmptyString
      | r => String c r
      end
  end.

Definition strip (s : string) : string := rstrip (lstrip s).

Definition hex_digit (c : ascii) : option nat :=
  let n := nat_of_ascii c in
  if (48 <=? n)%nat && (n <=? 57)%nat then Some (n - 48)
  else if (65 <=? n)%nat && (n <=? 70)%nat then Some (n - 55)
  else if (97 <=? n)%nat && (n <=? 102)%nat then Some (n - 87)
  else None.

Definition plus_to_space (c : ascii) : ascii :=
  if Ascii.eqb c "+" then " "%char else c.

(** Percent-decoding, byte by byte; an escape that is not two hex
    digits is left as it is. *)
Fixpoint unquote (s : string) : string :=
  match s with
  | EmptyString => EmptyString
  | String c s1 =>
      match s1 with
      | String a (String b rest) =>
          if Ascii.eqb c "%" then
            match hex_digit a, hex_digit b with
            | Some x, Some y => String (ascii_of_nat (16 * x + y)) (unquote rest)
            | _, _ => String c (unquote s1)
            end
          else String c (unquote s1)
      | _ => String c (unquote s1)
      end
  end.

Fixpoint map_chars (f : ascii -> ascii) (s : string) : string :=
  match s with
  | EmptyString => EmptyString
  | String c s' => String (f c) (map_chars f s')
  end.

Definition unquote_plus (s : string) : string :=
  unquote (map_chars plus_to_space s).

End Ascii_str.

Definition ascii_str : PyStr :=
  {| lower := Ascii_str.lower;
     strip := Ascii_str.strip;
     unquote_plus := Ascii_str.unquote_plus |}.

(** [s.endswith(suffix)] *)
Definition endswith (s suffix : string) : bool :=
  let n := String.length s in
  let m := String.length suffix in
  if (m <=? n)%nat
  then String.eqb (String.substring (n - m) m s) suffix
  else false.

(** Truth value of a Python [str]: the empty string is false. *)
Definition truthy (s : string) : bool :=
  match s with EmptyString => false | _ => true end.


(** ** The provisioning handler ([user-inveite-and-disable/src/app.py]) *)

Module Provisioning.

(** Credentials of one org: [(apiKey, appKey)]. *)
Definition keys : Type := string * string.

(** What [csv.DictReader] leaves under a column name in one row: the
    column is not in the header ([Absent]), the row is shorter than the
    header and the reader filled in [restval = None] ([Null]), or the
    field itself. *)
Inductive cell :=
| Absent
| Null
| Str (s : string).

(** The four columns the handler reads. *)
Record row := {
  row_email : cell;
  row_name : cell;
  row_org : cell;
  row_role : cell;
}.

(** A Python value that is [None] or a [str]. *)
Definition pyval := option string.

(** [row.get(k, "")] *)
Definition get_or_empty (c : cell) : pyval :=
  match c with
  | Absent => Some ""
  | Null => None
  | Str s => Some s
  end.

(** [row.get(k)] *)
Definition get (c : cell) : pyval :=
  match c with
  | Absent => None
  | Null => None
  | Str s => Some s
  end.

(** [v or ""] *)
Definition or_empty (v : pyval) : string :=
  match v with
  | Some s => if truthy s then s else ""
  | None => ""
  end.

Record role_json := {
  role_name : string;      (* role["attributes"]["name"] *)
  role_id : string;        (* role["id"] *)
}.

Record user := {
  user_id : string;        (* u.id *)
  user_email : string;     (* u.attributes.email *)
}.

Record s3_record := {
  rec_bucket : string;     (* record["s3"]["bucket"]["name"] *)
  rec_key : string;        (* record["s3"]["object"]["key"] *)
}.

Inductive mode := Create | Delete.

(** The calls that leave the process. *)
Inductive call :=
| GetSecretValue                                      (* secrets.get_secret_value *)
| GetObject (bucket key : string)                     (* s3.get_object *)
| DeleteObject (bucket key : string)                  (* s3.delete_object *)
| ListRoles (k : keys)                                (* GET /api/v2/roles *)
| CreateUser (k : keys) (name email role_id : string) (* users_api.create_user *)
| SendInvite (k : keys) (user_id : string)            (* users_api.send_invitations *)
| ListUsers (k : keys)                                (* users_api.list_users_with_pagination *)
| DisableUser (k : keys) (user_id : string).          (* users_api.disable_user *)

(** What a call answers.  [Raises] is any exception out of the client
    library; an answer of the wrong shape for the call that asked is
    treated as an exception too (the code would fail reading it). *)
Inductive response :=
| Raises
| Secret (orgs : gmap string keys)
| Body (rows : list row)
| Deleted
| Roles (status : Z) (roles : list role_json)
| Created (user_id status : string)
| Invited (total_count : Z)
| Users (users : list user)
| Disabled.

Inductive exn :=
| AttributeError                 (* [None.strip()] *)
| CallError (c : call)           (* the call raised *)
| RuntimeError (status : Z)      (* "Failed to list roles (status ...)" *)
| KeyError (role_name : string). (* "Role '...' not found" *)

(** The log statements of the module, one constructor per statement. *)
Inductive log_entry :=
| Info_CreateUser (email status : string)
| Exc_FailedCreate (email : string)
| Info_SendInvite (email : string) (total_count : Z)
| Exc_FailedInvite (email : string)
| Warn_UserNotFound (email : string)
| Info_DeleteUser (email : string)
| Exc_FailedDelete (email : string)
| Err_MissingEmail (r : row)
| Err_MissingOrgRole (r : row)
| Err_UnknownOrg (org_name : string)
| Exc_RoleLookup (org_name role_name : string)
| Exc_CreateInvite (email : string)
| Exc_DeleteUser (email : string)
| Exc_DeleteCsv (key : string).

Inductive event :=
| Call (c : call)
| Log (l : log_entry).

Inductive result (A : Type) :=
| Return (a : A)
| Raise (e : exn).
Arguments Return {A} a.
Arguments Raise {A} e.

(** How the handler leaves a row.  The code keeps no ledger: the value
    names the branch of the loop body that ended the row. *)
Inductive outcome :=
| Succeeded                      (* the create or delete flow returned *)
| ValidationError                (* missing email, org or role: logged, [continue] *)
| UnknownTenant                  (* org not in the secret: logged, [continue] *)
| RoleError                      (* role lookup raised: logged, [continue] *)
| CreateInviteError (e : exn)    (* [create_and_invite_user] raised: logged *)
| DeleteError (e : exn).         (* [delete_user] raised: logged *)

(** The calls of a trace, in order. *)
Fixpoint calls (t : list event) : list call :=
  match t with
  | [] => []
  | Call c :: t' => c :: calls t'
  | Log _ :: t' => calls t'
  end.

Definition is_create (c : call) : bool :=
  match c with CreateUser _ _ _ _ => true | _ => false end.
Definition is_invite (c : call) : bool :=
  match c with SendInvite _ _ => true | _ => false end.
Definition is_disable (c : call) : bool :=
  match c with DisableUser _ _ => true | _ => false end.
Definition is_list_roles (c : call) : bool :=
  match c with ListRoles _ => true | _ => false end.
Definition is_delete_object (c : call) : bool :=
  match c with DeleteObject _ _ => true | _ => false end.

(** Number of calls of a kind in a trace. *)
Definition count (p : call -> bool) (t : list event) : nat :=
  length (filter (fun c => p c = true) (calls t)).

(** [role_cache = defaultdict(str)]: reading a missing key stores and
    returns the empty string. *)
Definition defaultdict_get (d : gmap (string * string) string) (k : string * string)
  : string * gmap (string * string) string :=
  match d !! k with
  | Some v => (v, d)
  | None => ("", <[k := ""]> d)
  end.

(** The identifier the cache holds for a key; the empty string when it
    holds none. *)
Definition cached (d : gmap (string * string) string) (k : string * string) : string :=
  default "" (d !! k).

Section Handler.
Context `{PyStr}.
Variable World : Type.
Variable respond : World -> call -> response * World.

(** A computation reads and advances the world, returns or raises, and
    leaves the trace of what it did. *)
Definition M (A : Type) : Type := World -> result A * World * list event.

Definition ret {A} (a : A) : M A := fun w => (Return a, w, []).

Definition raise {A} (e : exn) : M A := fun w => (Raise e, w, []).

Definition bind {A B} (m : M A) (f : A -> M B) : M B :=
  fun w =>
    let '(r, w1, t1) := m w in
    match r with
    | Return a => let '(r2, w2, t2) := f a w1 in (r2, w2, (t1 ++ t2)%list)
    | Raise e => (Raise e, w1, t1)
    end.

(** [try: m  except Exception: h] *)
Definition try_except {A} (m : M A) (h : exn -> M A) : M A :=
  fun w =>
    let '(r, w1, t1) := m w in
    match r with
    | Return a => (Return a, w1, t1)
    | Raise e => let '(r2, w2, t2) := h e w1 in (r2, w2, (t1 ++ t2)%list)
    end.

Definition log (l : log_entry) : M unit := fun w => (Return tt, w, [Log l]).

Definition request (c : call) : M response :=
  fun w =>
    let '(r, w1) := respond w c in
    (match r with Raises => Raise (CallError c) | _ => Return r end, w1, [Call c]).

Notation "'let*' x ':=' m 'in' k" := (bind m (fun x => k))
  (at level 10, x name, m at level 100, k at level 200).
Notation "'let*' ' p ':=' m 'in' k" :=
  (bind m (fun x => match x with p => k end))
  (at level 10, p pattern, m at level 100, k at level 200).
Notation "m '>>' k" := (bind m (fun _ => k))
  (at level 100, k at level 200, right associativity).

(** [try: m  except Exception: LOGGER.exception(l); raise] *)
Definition logging (l : log_entry) {A} (m : M A) : M A :=
  try_except m (fun e => log l >> raise e).

Definition create_and_invite_user (k : keys) (name email role_id : string) : M unit :=
  let* user_id :=
    logging (Exc_FailedCreate email)
      (let* create_resp := request (CreateUser k name email role_id) in
       match create_resp with
       | Created user_id status => log (Info_CreateUser email status) >> ret user_id
       | _ => raise (CallError (CreateUser k name email role_id))
       end) in
  logging (Exc_FailedInvite email)
    (let* invite_resp := request (SendInvite k user_id) in
     match invite_resp with
     | Invited total_count => log (Info_SendInvite email total_count)
     | _ => raise (CallError (SendInvite k user_id))
     end).

Definition same_email (email : string) (u : user) : bool :=
  String.eqb (lower (user_email u)) (lower email).

Definition delete_user (k : keys) (email : string) : M unit :=
  logging (Exc_FailedDelete email)
    (let* resp := request (ListUsers k) in
     match resp with
     | Users users =>
         match List.find (same_email email) users with
         | None => log (Warn_UserNotFound email)
         | Some u =>
             let* resp2 := request (DisableUser k (user_id u)) in
             match resp2 with
             | Disabled => log (Info_DeleteUser email)
             | _ => raise (CallError (DisableUser k (user_id u)))
             end
         end
     | _ => raise (CallError (ListUsers k))
     end).

Definition same_role (role_name0 : string) (r : role_json) : bool :=
  String.eqb (lower (role_name r)) (lower role_name0).

Definition _get_role_id (k : keys) (role_name0 : string) : M string :=
  let* resp := request (ListRoles k) in
  match resp with
  | Roles status roles =>
      if (300 <=? status)%Z then raise (RuntimeError status)
      else
        match List.find (same_role role_name0) roles with
        | Some r => ret (role_id r)
        | None => raise (KeyError role_name0)
        end
  | _ => raise (CallError (ListRoles k))
  end.

(** Lines 215-223 of the handler: the role identifier for a row, from the
    cache or from [_get_role_id].  [None] is the [continue] after a failed
    lookup. *)
Definition resolve_role (k : keys) (org_name role_name0 : string)
    (role_cache : gmap (string * string) string)
  : M (option string * gmap (string * string) string) :=
  let cache_key := (org_name, role_name0) in
  let '(cached, role_cache1) := defaultdict_get role_cache cache_key in
  if truthy cached then ret (Some cached, role_cache1)
  else
    try_except
      (let* id := _get_role_id k role_name0 in
       ret (Some id, <[cache_key := id]> role_cache1))
      (fun e => log (Exc_RoleLookup org_name role_name0) >> ret (None, role_cache1)).

(** [v.strip()] for [v] that may be [None]. *)
Definition strip_val (v : pyval) : M string :=
  match v with
  | Some s => ret (strip s)
  | None => raise AttributeError
  end.

(** [(row.get("name") or "").strip() or email] *)
Definition name_of (r : row) (email : string) : string :=
  let n := strip (or_empty (get (row_name r))) in
  if truthy n then n else email.

(** Lines 223-235 of the handler: what is done with the row once the
    role lookup is over. *)
Definition provision (md : mode) (k : keys) (name email : string)
    (resolved : option string * gmap (string * string) string)
  : M (outcome * gmap (string * string) string) :=
  match resolved with
  | (None, role_cache1) => ret (RoleError, role_cache1)
  | (Some role_id0, role_cache1) =>
      match md with
      | Create =>
          try_except
            (create_and_invite_user k name email role_id0 >>
             ret (Succeeded, role_cache1))
            (fun e => log (Exc_CreateInvite email) >>
                      ret (CreateInviteError e, role_cache1))
      | Delete =>
          try_except
            (delete_user k email >> ret (Succeeded, role_cache1))
            (fun e => log (Exc_DeleteUser email) >>
                      ret (DeleteError e, role_cache1))
      end
  end.

(** The body of [for row in csv_rows]. *)
Definition process_row (md : mode) (org_map : gmap string keys)
    (role_cache : gmap (string * string) string) (r : row)
  : M (outcome * gmap (string * string) string) :=
  let* email := strip_val (get_or_empty (row_email r)) in
  if negb (truthy email) then
    log (Err_MissingEmail r) >> ret (ValidationError, role_cache)
  else
    let name := name_of r email in
    let* org_name := strip_val (get_or_empty (row_org r)) in
    let* role_name0 := strip_val (get_or_empty (row_role r)) in
    if negb (truthy org_name) || negb (truthy role_name0) then
      log (Err_MissingOrgRole r) >> ret (ValidationError, role_cache)
    else
      match org_map !! org_name with
      | None => log (Err_UnknownOrg org_name) >> ret (UnknownTenant, role_cache)
      | Some k =>
          let* resolved := resolve_role k org_name role_name0 role_cache in
          provision md k name email resolved
      end.

(** [for row in csv_rows]: an exception out of a row ends the loop. *)
Fixpoint run_rows (md : mode) (org_map : gmap string keys)
    (role_cache : gmap (string * string) string) (rows : list row)
  : M (list outcome * gmap (string * string) string) :=
  match rows with
  | [] => ret ([], role_cache)
  | r :: rows' =>
      let* '(o, role_cache1) := process_row md org_map role_cache r in
      let* '(os, role_cache2) := run_rows md org_map role_cache1 rows' in
      ret (o :: os, role_cache2)
  end.

Definition mode_of (key : string) : option mode :=
  if endswith key "create_user.csv" then Some Create
  else if endswith key "delete_user.csv" then Some Delete
  else None.

(** The body of [for record in records]. *)
Definition process_record (org_map : gmap string keys)
    (role_cache : gmap (string * string) string) (rec : s3_record)
  : M (list outcome * gmap (string * string) string) :=
  let bucket := rec_bucket rec in
  let key := unquote_plus (rec_key rec) in
  match mode_of key with
  | None => ret ([], role_cache)
  | Some md =>
      let* body := request (GetObject bucket key) in
      match body with
      | Body csv_rows =>
          let* '(os, role_cache1) := run_rows md org_map role_cache csv_rows in
          try_except
            (let* resp := request (DeleteObject bucket key) in
             match resp with
             | Deleted => ret tt
             | _ => raise (CallError (DeleteObject bucket key))
             end)
            (fun e => log (Exc_DeleteCsv key)) >>
          ret (os, role_cache1)
      | _ => raise (CallError (GetObject bucket key))
      end
  end.

Fixpoint run_records (org_map : gmap string keys)
    (role_cache : gmap (string * string) string) (records : list s3_record)
  : M (list (list outcome)) :=
  match records with
  | [] => ret []
  | rec :: records' =>
      let* '(os, role_cache1) := process_record org_map role_cache rec in
      let* oss := run_records org_map role_cache1 records' in
      ret (os :: oss)
  end.

(** [lambda_handler(event, context)], with [records = event.get("Records", [])].
    The handler returns [None]; the outcomes are returned here for the
    statements about them. *)
Definition lambda_handler (records : list s3_record) : M (list (list outcome)) :=
  match records with
  | [] => ret []
  | _ =>
      let* secret := request GetSecretValue in
      match secret with
      | Secret org_map => run_records org_map ∅ records
      | _ => raise (CallError GetSecretValue)
      end
  end.

End Handler.

Arguments ret {World A} a.
Arguments raise {World A} e.
Arguments bind {World A B} m f.
Arguments try_except {World A} m h.
Arguments log {World} l.
Arguments logging {World} l {A} m.
Arguments request {World} respond c.
Arguments create_and_invite_user {World} respond k name email role_id.
Arguments delete_user {H World} respond k email.
Arguments _get_role_id {H World} respond k role_name0.
Arguments resolve_role {H World} respond k org_name role_name0 role_cache.
Arguments strip_val {H World} v.
Arguments provision {H World} respond md k name email resolved.
Arguments process_row {H World} respond md org_map role_cache r.
Arguments run_rows {H World} respond md org_map role_cache rows.
Arguments process_record {H World} respond org_map role_cache rec.
Arguments run_records {H World} respond org_map role_cache records.
Arguments lambda_handler {H World} respond records.

(** A world without state: every call is answered by its arguments
    alone. *)
Definition stateless (answer : call -> response) (w : unit) (c : call)
  : response * unit := (answer c, w).

End Provisioning.

(** ** The pending-invite report ([user-pending-check/src/app/lambda_function.py]) *)

Module Pending.

(** [keys = {"apiKey": ..., "appKey": ...}] *)
Record keys := {
  apiKey : string;
  appKey : string;
}.

(** [user["attributes"]]; [None] is a key that is not there. *)
Record attributes := {
  attr_status : option string;
  attr_email : option string;
  attr_name : option string;
}.

(** One element of [body["data"]]. *)
Record user_json := {
  u_id : string;
  u_attributes : option attributes;
}.

(** What the report keeps of a user. *)
Record pending_user := {
  id : string;
  email : option string;
  name : option string;
}.

(** [requests.get(url, headers=headers, params=params, timeout=10)];
    [params] is [(page[size], filter[status])] or [None]. *)
Record request := {
  req_url : string;
  req_keys : keys;
  req_params : option (Z * string);
}.

(** [GetError] is a [requests.RequestException], from the transport or
    from [raise_for_status]; [Page data next] is a body with
    [body.get("data", [])] and [body.get("links", {}).get("next")]. *)
Inductive response :=
| GetError
| Page (data : list user_json) (next : option string).

Inductive event :=
| Request (r : request)
| LogRequestFailed
| LogResponseContent
| Yield (u : user_json)
| Print (line : string).

(** How a generator or a function ends.  [OutOfFuel] is the model's: the
    bound on the number of pages was reached. *)
Inductive result (A : Type) :=
| Return (a : A)
| Raise
| OutOfFuel.
Arguments Return {A} a.
Arguments Raise {A}.
Arguments OutOfFuel {A}.

Definition PAGE_SIZE : Z := 100.

(** Truth value of [url], a [str] or [None]. *)
Definition url_truthy (url : option string) : bool :=
  match url with
  | Some u => truthy u
  | None => false
  end.

Fixpoint requests (t : list event) : list request :=
  match t with
  | [] => []
  | Request r :: t' => r :: requests t'
  | _ :: t' => requests t'
  end.

Fixpoint yields (t : list event) : list user_json :=
  match t with
  | [] => []
  | Yield u :: t' => u :: yields t'
  | _ :: t' => yields t'
  end.

Fixpoint prints (t : list event) : list string :=
  match t with
  | [] => []
  | Print l :: t' => l :: prints t'
  | _ :: t' => prints t'
  end.

(** [len(s)]: the number of characters of the text, a string here
    being the UTF-8 bytes of the Python [str].  Every character has
    exactly one byte that is not a continuation byte (10xxxxxx); those
    are counted. *)
Definition continues (c : ascii) : bool :=
  let n := nat_of_ascii c in
  (128 <=? n)%nat && (n <? 192)%nat.

Fixpoint len (s : string) : nat :=
  match s with
  | EmptyString => 0
  | String c s' => if continues c then len s' else S (len s')
  end.

Fixpoint spaces (n : nat) : string :=
  match n with
  | O => ""
  | S n' => String " " (spaces n')
  end.

(** [s.ljust(width)], which is what the format [:<width] does to a
    string: blanks on the right, up to [width] characters. *)
Definition ljust (width : nat) (s : string) : string :=
  s ++ spaces (width - len s).

(** [u['name'] or '-'] *)
Definition name_or_dash (n : option string) : string :=
  match n with
  | Some s => if truthy s then s else "-"
  | None => "-"
  end.

(** [f"{u['email']:<35} {u['name'] or '-':<25} id:{u['id']}"];
    [None] is the [TypeError] of formatting [None] with a width. *)
Definition format_user (u : pending_user) : option string :=
  match email u with
  | None => None
  | Some e =>
      Some (ljust 35 e ++ " " ++ ljust 25 (name_or_dash (name u)) ++ " id:" ++ id u)
  end.

(** The line as the specification words it, for comparison with
    [format_user]: the email padded on the left to 35 characters, the
    name padded on the left to 25 characters, then [id:<id>]; the
    separators are those of the code. *)
Definition left_pad (width : nat) (s : string) : string :=
  spaces (width - len s) ++ s.

Definition spec_line (email name id : string) : string :=
  left_pad 35 email ++ " " ++ left_pad 25 name ++ " id:" ++ id.

Definition NO_PENDING : string := "招待保留ユーザはありません".

Section Reporter.
Context `{PyStr}.
Variable DATADOG_SITE : string.
Variable World : Type.
Variable respond : World -> request -> response * World.

Definition first_url : string :=
  "https://api." ++ DATADOG_SITE ++ "/api/v2/users".

(** The [while url:] loop of [list_users]; [fuel] bounds the number of
    pages requested. *)
Fixpoint list_users_from (fuel : nat) (k : keys) (url : option string)
    (params : option (Z * string)) (w : World)
  : result unit * World * list event :=
  match url with
  | None => (Return tt, w, [])
  | Some u =>
      if negb (truthy u) then (Return tt, w, [])
      else
        match fuel with
        | O => (OutOfFuel, w, [])
        | S fuel' =>
            let r := {| req_url := u; req_keys := k; req_params := params |} in
            let '(res, w1) := respond w r in
            match res with
            | GetError => (Raise, w1, [Request r; LogRequestFailed; LogResponseContent])
            | Page data next =>
                let '(st, w2, t) := list_users_from fuel' k next None w1 in
                (st, w2, (Request r :: map Yield data ++ t)%list)
            end
        end
  end.

Definition list_users (fuel : nat) (k : keys) (w : World)
  : result unit * World * list event :=
  list_users_from fuel k (Some first_url) (Some (PAGE_SIZE, "Pending")) w.

(** The body of [for user in list_users(api, app)]. *)
Definition keep_pending (u : user_json) : option pending_user :=
  match u_attributes u with
  | None => None  (* the status is the empty string *)
  | Some a =>
      let status := lower (default "" (attr_status a)) in
      if String.eqb status "pending"
      then Some {| id := u_id u; email := attr_email a; name := attr_name a |}
      else None
  end.

Definition fetch_invite_pending (fuel : nat) (org_name : string) (k : keys) (w : World)
  : result (list pending_user) * World * list event :=
  let '(st, w1, t) := list_users fuel k w in
  match st with
  | Return _ => (Return (omap keep_pending (yields t)), w1, t)
  | Raise => (Raise, w1, t)
  | OutOfFuel => (OutOfFuel, w1, t)
  end.

(** [for org_name, info in get_orgs().items(): result[org_name] = ...];
    [orgs] is [get_orgs().items()], the report is kept in insertion
    order. *)
Fixpoint fetch_all (fuel : nat) (orgs : list (string * keys)) (w : World)
  : result (list (string * list pending_user)) * World * list event :=
  match orgs with
  | [] => (Return [], w, [])
  | (org_name, k) :: orgs' =>
      let '(r, w1, t1) := fetch_invite_pending fuel org_name k w in
      match r with
      | Return users =>
          let '(r2, w2, t2) := fetch_all fuel orgs' w1 in
          (match r2 with
           | Return rest => Return ((org_name, users) :: rest)
           | Raise => Raise
           | OutOfFuel => OutOfFuel
           end, w2, (t1 ++ t2)%list)
      | Raise => (Raise, w1, t1)
      | OutOfFuel => (OutOfFuel, w1, t1)
      end
  end.

(** [for u in users: print(...)]; [None] when a line cannot be formatted,
    with the lines printed before it. *)
Fixpoint print_users (users : list pending_user) : option unit * list string :=
  match users with
  | [] => (Some tt, [])
  | u :: users' =>
      match format_user u with
      | None => (None, [])
      | Some line =>
          let '(r, lines) := print_users users' in (r, line :: lines)
      end
  end.

(** [for org, users in result.items(): ...] *)
Fixpoint print_report (report : list (string * list pending_user))
  : option unit * list string :=
  match report with
  | [] => (Some tt, [])
  | (org, users) :: report' =>
      let header := "=== " ++ org ++ " ===" in
      match users with
      | [] =>
          let '(r, lines) := print_report report' in
          (r, header :: NO_PENDING :: lines)
      | _ =>
          match print_users users with
          | (None, lines) => (None, header :: lines)
          | (Some _, lines) =>
              let '(r, lines') := print_report report' in
              (r, (header :: lines ++ lines')%list)
          end
      end
  end.

(** The value the handler returns: [{"statusCode": ..., "body": ...}],
    the body before [json.dumps]. *)
Record reply := {
  statusCode : Z;
  body : list (string * list pending_user);
}.

Definition lambda_handler (fuel : nat) (orgs : list (string * keys)) (w : World)
  : result reply * World * list event :=
  let '(r, w1, t) := fetch_all fuel orgs w in
  match r with
  | Return report =>
      let '(p, lines) := print_report report in
      let t' := (t ++ map Print ("Invite Pending Users" :: lines))%list in
      match p with
      | Some _ => (Return {| statusCode := 200; body := report |}, w1, t')
      | None => (Raise, w1, t')
      end
  | Raise => (Raise, w1, t)
  | OutOfFuel => (OutOfFuel, w1, t)
  end.

End Reporter.

Arguments list_users_from {World} respond fuel k url params w.
Arguments list_users DATADOG_SITE {World} respond fuel k w.
Arguments fetch_invite_pending {H} DATADOG_SITE {World} respond fuel org_name k w.
Arguments fetch_all {H} DATADOG_SITE {World} respond fuel orgs w.
Arguments lambda_handler {H} DATADOG_SITE {World} respond fuel orgs w.

End Pending.

(** ** Concrete tenants, rows and pages *)

Module Provisioning_examples.
Import Provisioning.

Definition acme : keys := ("api-key", "app-key").

Definition org_map1 : gmap string keys := {[ "acme" := acme ]}.

Definition read_only : role_json :=
  {| role_name := "Datadog Read Only Role"; role_id := "7" |}.
Definition admin : role_json :=
  {| role_name := "Admin"; role_id := "42" |}.
Definition roles1 : list role_json := [read_only; admin].

Definition user_a : user := {| user_id := "u1"; user_email := "A@x.com" |}.
Definition user_c : user := {| user_id := "u2"; user_email := "C@X.com" |}.
Definition users1 : list user := [user_a; user_c].

(** A tenant where every call succeeds; [rows] is the content of the
    CSV. *)
Definition healthy (rows : list row) (c : call) : response :=
  match c with
  | GetSecretValue => Secret org_map1
  | GetObject _ _ => Body rows
  | DeleteObject _ _ => Deleted
  | ListRoles _ => Roles 200 roles1
  | CreateUser _ _ email _ => Created ("id-" ++ email) "Pending"
  | SendInvite _ _ => Invited 1
  | ListUsers _ => Users users1
  | DisableUser _ _ => Disabled
  end.

(** The same tenant with one call failing. *)
Definition create_down (rows : list row) (c : call) : response :=
  match c with
  | CreateUser _ _ _ _ => Raises
  | _ => healthy rows c
  end.

Definition invite_down (rows : list row) (c : call) : response :=
  match c with
  | SendInvite _ _ => Raises
  | _ => healthy rows c
  end.

Definition roles_down (rows : list row) (c : call) : response :=
  match c with
  | ListRoles _ => Roles 503 []
  | _ => healthy rows c
  end.

Definition cleanup_down (rows : list row) (c : call) : response :=
  match c with
  | DeleteObject _ _ => Raises
  | _ => healthy rows c
  end.

(** [a@x.com,,acme,Admin] under the header [email,name,org,role] *)
Definition row_create : row :=
  {| row_email := Str "a@x.com"; row_name := Str "";
     row_org := Str "acme"; row_role := Str "Admin" |}.

(** [,Nobody,acme,Admin]: no email *)
Definition row_no_email : row :=
  {| row_email := Str ""; row_name := Str "Nobody";
     row_org := Str "acme"; row_role := Str "Admin" |}.

(** [c@x.com,acme,Admin] under the header [email,org,role] *)
Definition row_delete : row :=
  {| row_email := Str "c@x.com"; row_name := Absent;
     row_org := Str "acme"; row_role := Str "Admin" |}.

(** [c@x.com,acme] under the header [email,org] *)
Definition row_delete_no_role : row :=
  {| row_email := Str "c@x.com"; row_name := Absent;
     row_org := Str "acme"; row_role := Absent |}.

(** [a@x.com] alone on its line under the header [email,name,org,role]:
    the reader fills the three missing fields with [None]. *)
Definition row_short : row :=
  {| row_email := Str "a@x.com"; row_name := Null;
     row_org := Null; row_role := Null |}.

Definition record_create : s3_record :=
  {| rec_bucket := "inbox"; rec_key := "in/create_user.csv" |}.
Definition record_other : s3_record :=
  {| rec_bucket := "inbox"; rec_key := "in/readme.txt" |}.

End Provisioning_examples.

Module Pending_examples.
Import Pending.

Definition site : string := "datadoghq.com".

Definition good : keys := {| apiKey := "api-1"; appKey := "app-1" |}.
Definition bad : keys := {| apiKey := "api-2"; appKey := "app-2" |}.

Definition alice : user_json :=
  {| u_id := "1";
     u_attributes := Some {| attr_status := Some "Pending";
                             attr_email := Some "alice@x.com";
                             attr_name := Some "Alice" |} |}.
Definition bob : user_json :=
  {| u_id := "2";
     u_attributes := Some {| attr_status := Some "Active";
                             attr_email := Some "bob@x.com";
                             attr_name := Some "Bob" |} |}.
Definition carol : user_json :=
  {| u_id := "3";
     u_attributes := Some {| attr_status := Some "Pending";
                             attr_email := Some "carol@x.com";
                             attr_name := Some "" |} |}.

Definition page2 : string := "https://api.datadoghq.com/api/v2/users?page=2".
Definition page3 : string := "https://api.datadoghq.com/api/v2/users?page=3".

(** A directory of three pages, the second one empty; the keys of
    [bad] are refused. *)
Definition directory (r : request) : response :=
  if String.eqb (apiKey (req_keys r)) "api-2" then GetError
  else if String.eqb (req_url r) "https://api.datadoghq.com/api/v2/users"
  then Page [alice; bob] (Some page2)
  else if String.eqb (req_url r) page2 then Page [] (Some page3)
  else if String.eqb (req_url r) page3 then Page [carol] None
  else GetError.

Definition stateless (answer : request -> response) (w : unit) (r : request)
  : response * unit := (answer r, w).

Definition pending_carol : pending_user :=
  {| id := "3"; email := Some "carol@x.com"; name := Some "" |}.
Definition pending_alice : pending_user :=
  {| id := "1"; email := Some "alice@x.com"; name := Some "Alice" |}.

End Pending_examples.

(** ** The monitor export and import script
       ([scripts/datadog_export_import_monitor.py]) *)

From stdpp Require pretty.

(** [int(s)] of Python, where [None] is the [ValueError], and the
    decimal text of an integer as an f-string prints it. *)
Class PyInt := {
  parse_int : string -> option Z;
  show_int : Z -> string;
}.

Module Decimal.

Definition digit (c : ascii) : option Z :=
  let n := nat_of_ascii c in
  if (48 <=? n)%nat && (n <=? 57)%nat then Some (Z.of_nat (n - 48)) else None.

Fixpoint digits (acc : Z) (s : string) : option Z :=
  match s with
  | EmptyString => Some acc
  | String c s' =>
      match digit c with
      | Some d => digits (10 * acc + d) s'
      | None => None
      end
  end.

(** The integers written with digits only; [int] accepts more (a sign,
    blanks around the digits, underscores between them). *)
Definition parse (s : string) : option Z :=
  match s with
  | EmptyString => None
  | _ => digits 0 s
  end.

End Decimal.

Definition decimal_int : PyInt :=
  {| parse_int := Decimal.parse; show_int := pretty.pretty |}.

Module Monitors.

(** A JSON value, as [json.load] and [to_dict] give it. *)
#[local] Unset Elimination Schemes.
Inductive json :=
| JNull
| JBool (b : bool)
| JNum (n : Z)
| JStr (s : string)
| JList (items : list json)
| JObj (fields : list (string * json)).
#[local] Set Elimination Schemes.

(** [Dict[str, Any]], in the order of its keys. *)
Definition payload : Type := list (string * json).

Definition keys : Type := string * string.

Definition READ_ONLY_KEYS : gset string :=
  {[ "id"; "org_id"; "created"; "created_at"; "modified"; "deleted";
     "overall_state"; "overall_state_modified"; "matching_downtimes";
     "multi"; "overall_state_transitions"; "creator" ]}.

(** [{k: v for k, v in payload.items() if k not in READ_ONLY_KEYS}] *)
Definition sanitize_monitor (p : payload) : payload :=
  filter (fun kv => kv.1 ∉ READ_ONLY_KEYS) p.

(** What the script asks of the outside.  [None] and [false] are an
    exception raised by the operation. *)
Class Env (World : Type) := {
  getenv : string -> option string;                           (* os.getenv *)
  input : World -> string -> option string * World;           (* input(prompt) *)
  open_csv : World -> string -> option (list (list string)) * World;
                                                  (* open + the rows of csv.reader *)
  get_monitor : World -> keys -> Z -> option payload * World;
                                                  (* api.get_monitor(id).to_dict() *)
  write_json : World -> string -> payload -> bool * World;    (* open("w") + json.dump *)
  glob : World -> string -> list string * World;              (* glob.glob *)
  read_json : World -> string -> option payload * World;      (* open + json.load *)
  create_monitor : World -> keys -> payload -> option Z * World;
                                                  (* api.create_monitor(body).id *)
}.

Inductive call :=
| Input (prompt : string)
| OpenCsv (path : string)
| GetMonitor (k : keys) (id : Z)
| WriteJson (path : string) (data : payload)
| Glob (pattern : string)
| ReadJson (path : string)
| CreateMonitor (k : keys) (body : payload).

(** The messages of the script, one constructor per text. *)
Inductive message :=
| BadHeader                        (* "CSV first column header must be 'id'" *)
| InvalidId (cell : string)        (* "Invalid ID '...' - skipping" *)
| ExportFailed (id : Z)            (* "Failed to export monitor ID ..." *)
| Exported (id : Z)                (* "Exported monitor ID ..." *)
| NoFiles (pattern : string)       (* "No JSON files found for pattern: ..." *)
| ImportFailed (file : string)     (* "Failed to import ..." *)
| Imported (file : string) (id : Z). (* "Imported ... as new monitor ID ..." *)

Inductive event :=
| Call (c : call)
| LogInfo (m : message)
| LogError (m : message)
| Stderr (m : message).

(** How a function of the script ends. *)
Inductive ending := Returned | Raised.

Fixpoint calls (t : list event) : list call :=
  match t with
  | [] => []
  | Call c :: t' => c :: calls t'
  | _ :: t' => calls t'
  end.

(** The identifiers asked of [get_monitor], the files written, the
    files read and the bodies posted, in order. *)
Definition fetched (t : list event) : list Z :=
  omap (fun c => match c with GetMonitor _ id => Some id | _ => None end) (calls t).
Definition written (t : list event) : list (string * payload) :=
  omap (fun c => match c with WriteJson path data => Some (path, data) | _ => None end)
       (calls t).
Definition read (t : list event) : list string :=
  omap (fun c => match c with ReadJson path => Some path | _ => None end) (calls t).
Definition posted (t : list event) : list payload :=
  omap (fun c => match c with CreateMonitor _ body => Some body | _ => None end)
       (calls t).
Definition prompts (t : list event) : list string :=
  omap (fun c => match c with Input prompt => Some prompt | _ => None end) (calls t).

Section Script.
Context `{PyStr} `{PyInt}.
Context {World : Type} `{Env World}.

(** [os.getenv(var) or input(prompt)] *)
Definition env_or_input (var prompt : string) (w : World)
  : option string * World * list event :=
  let ask := let '(r, w1) := input w prompt in (r, w1, [Call (Input prompt)]) in
  match getenv var with
  | Some v => if truthy v then (Some v, w, []) else ask
  | None => ask
  end.

Definition get_api_keys (w : World) : option keys * World * list event :=
  let '(a, w1, t1) := env_or_input "DD_API_KEY" "Datadog API Key: " w in
  match a with
  | None => (None, w1, t1)
  | Some api_key =>
      let '(b, w2, t2) := env_or_input "DD_APP_KEY" "Datadog Application Key: " w1 in
      match b with
      | None => (None, w2, (t1 ++ t2)%list)
      | Some app_key => (Some (strip api_key, strip app_key), w2, (t1 ++ t2)%list)
      end
  end.

(** The body of [for row in reader] in [export_monitors]. *)
Definition export_row (k : keys) (row : list string) (w : World)
  : World * list event :=
  match row with
  | [] => (w, [])
  | cell :: _ =>
      match parse_int cell with
      | None => (w, [LogError (InvalidId cell); Stderr (InvalidId cell)])
      | Some monitor_id =>
          let '(m, w1) := get_monitor w k monitor_id in
          match m with
          | None =>
              (w1, [Call (GetMonitor k monitor_id);
                    LogError (ExportFailed monitor_id); Stderr (ExportFailed monitor_id)])
          | Some monitor =>
              let data := sanitize_monitor monitor in
              let out_path := (show_int monitor_id ++ ".json")%string in
              let '(ok, w2) := write_json w1 out_path data in
              (w2, [Call (GetMonitor k monitor_id); Call (WriteJson out_path data);
                    if ok then LogInfo (Exported monitor_id)
                    else LogError (ExportFailed monitor_id)]
                   ++ if ok then [] else [Stderr (ExportFailed monitor_id)])%list
          end
      end
  end.

Fixpoint export_rows (k : keys) (rows : list (list string)) (w : World)
  : World * list event :=
  match rows with
  | [] => (w, [])
  | row :: rows' =>
      let '(w1, t1) := export_row k row w in
      let '(w2, t2) := export_rows k rows' w1 in
      (w2, (t1 ++ t2)%list)
  end.

(** [not header or header[0].lower() != "id"], for
    [header = next(reader, None)] *)
Definition bad_header (rows : list (list string)) : bool :=
  match rows with
  | [] => true
  | [] :: _ => true
  | (first :: _) :: _ => negb (String.eqb (lower first) "id")
  end.

Definition export_monitors (csv_file : string) (w : World)
  : ending * World * list event :=
  let '(ks, w1, t1) := get_api_keys w in
  match ks with
  | None => (Raised, w1, t1)
  | Some k =>
      let '(f, w2) := open_csv w1 csv_file in
      match f with
      | None => (Raised, w2, (t1 ++ [Call (OpenCsv csv_file)])%list)
      | Some reader =>
          if bad_header reader then
            (Returned, w2, (t1 ++ [Call (OpenCsv csv_file); Stderr BadHeader])%list)
          else
            let '(w3, t3) := export_rows k (tail reader) w2 in
            (Returned, w3, (t1 ++ Call (OpenCsv csv_file) :: t3)%list)
      end
  end.

(** The body of [for file_path in files] in [import_monitors]. *)
Definition import_file (k : keys) (file_path : string) (w : World)
  : World * list event :=
  let '(p, w1) := read_json w file_path in
  match p with
  | None =>
      (w1, [Call (ReadJson file_path);
            LogError (ImportFailed file_path); Stderr (ImportFailed file_path)])
  | Some payload0 =>
      let body := sanitize_monitor payload0 in
      let '(m, w2) := create_monitor w1 k body in
      match m with
      | None =>
          (w2, [Call (ReadJson file_path); Call (CreateMonitor k body);
                LogError (ImportFailed file_path); Stderr (ImportFailed file_path)])
      | Some id =>
          (w2, [Call (ReadJson file_path); Call (CreateMonitor k body);
                LogInfo (Imported file_path id)])
      end
  end.

Fixpoint import_files (k : keys) (files : list string) (w : World)
  : World * list event :=
  match files with
  | [] => (w, [])
  | file_path :: files' =>
      let '(w1, t1) := import_file k file_path w in
      let '(w2, t2) := import_files k files' w1 in
      (w2, (t1 ++ t2)%list)
  end.

Definition import_monitors (pattern : string) (w : World)
  : ending * World * list event :=
  let '(files, w1) := glob w pattern in
  match files with
  | [] =>
      (Returned, w1,
       [Call (Glob pattern); Stderr (NoFiles pattern); LogError (NoFiles pattern)])
  | _ =>
      let '(ks, w2, t2) := get_api_keys w1 in
      match ks with
      | None => (Raised, w2, (Call (Glob pattern) :: t2)%list)
      | Some k =>
          let '(w3, t3) := import_files k files w2 in
          (Returned, w3, (Call (Glob pattern) :: t2 ++ t3)%list)
      end
  end.

(** [args.command], with its argument *)
Inductive command :=
| Export (csv_file : string)
| Import (pattern : string).

Definition main (args : command) (w : World) : ending * World * list event :=
  match args with
  | Export csv_file => export_monitors csv_file w
  | Import pattern => import_monitors pattern w
  end.

End Script.

End Monitors.

Module Monitors_examples.
Import Monitors.

Definition cpu_monitor : payload :=
  [("id", JNum 123); ("name", JStr "CPU high"); ("type", JStr "metric alert");
   ("creator", JObj [("email", JStr "a@x.com")]); ("query", JStr "avg:cpu > 90");
   ("overall_state", JStr "OK")].

(** An organisation with the monitor 123 only; the keys are in the
    environment, writing [7.json] fails, and two files match [*.json],
    the second of which cannot be read. *)
Definition office : Env unit :=
  {| getenv := fun var =>
       if String.eqb var "DD_API_KEY" then Some " api " else
       if String.eqb var "DD_APP_KEY" then Some "app" else None;
     input := fun w _ => (None, w);
     open_csv := fun w path =>
       (if String.eqb path "monitors.csv"
        then Some [["ID"]; ["123"]; []; ["abc"]; ["456"]]
        else None, w);
     get_monitor := fun w _ id => (if (id =? 123)%Z then Some cpu_monitor else None, w);
     write_json := fun w path _ => (negb (String.eqb path "7.json"), w);
     glob := fun w pattern =>
       (if String.eqb pattern "*.json" then ["123.json"; "broken.json"] else [], w);
     read_json := fun w path =>
       (if String.eqb path "123.json" then Some cpu_monitor else None, w);
     create_monitor := fun w _ _ => (Some 900%Z, w) |}.

End Monitors_examples.

(** ** Kinds of calls, for the statements on whole traces *)

Module Provisioning_calls.
Import Provisioning.

Definition is_get_secret (c : call) : bool :=
  match c with GetSecretValue => true | _ => false end.
Definition is_get_object (c : call) : bool :=
  match c with GetObject _ _ => true | _ => false end.
Definition is_list_users (c : call) : bool :=
  match c with ListUsers _ => true | _ => false end.

(** The calls a row of a mode may issue: the role listing, then the two
    calls of [create_and_invite_user] in Create mode, the two calls of
    [delete_user] in Delete mode. *)
Definition allowed (md : mode) (c : call) : bool :=
  match md, c with
  | _, ListRoles _ => true
  | Create, CreateUser _ _ _ _ => true
  | Create, SendInvite _ _ => true
  | Delete, ListUsers _ => true
  | Delete, DisableUser _ _ => true
  | _, _ => false
  end.

(** The calls of the rows of any mode. *)
Definition row_call (c : call) : bool := allowed Create c || allowed Delete c.

End Provisioning_calls.

(** ** More rows, sources and directories *)

Module More_examples.
Import Provisioning Provisioning_examples.

(** [z@x.com,Zed,globex,Admin]: the org is not in the secret *)
Definition row_unknown_org : row :=
  {| row_email := Str "z@x.com"; row_name := Str "Zed";
     row_org := Str "globex"; row_role := Str "Admin" |}.

(** [ b@x.com , Bea ,acme,admin]: blanks around the fields *)
Definition row_named : row :=
  {| row_email := Str " b@x.com "; row_name := Str " Bea ";
     row_org := Str "acme"; row_role := Str "admin" |}.

(** The tenant of [healthy] where the S3 object cannot be read. *)
Definition s3_down (c : call) : response :=
  match c with
  | GetObject _ _ => Raises
  | _ => healthy [] c
  end.

Definition record_delete : s3_record :=
  {| rec_bucket := "inbox"; rec_key := "in/delete_user.csv" |}.

End More_examples.

Module More_pages.
Import Pending Pending_examples.

(** A directory whose only page carries an empty link. *)
Definition one_page (r : request) : response := Page [alice] (Some "").

Definition pending_nobody : pending_user :=
  {| id := "9"; email := None; name := Some "Nobody" |}.

(** A name of four characters, twelve bytes in UTF-8. *)
Definition pending_taro : pending_user :=
  {| id := "7"; email := Some "taro@x.com"; name := Some "山田太郎" |}.

End More_pages.

Module More_monitors.
Import Monitors.

(** A console where no variable is set and the keys are typed. *)
Definition console : Env unit :=
  {| getenv := fun _ => None;
     input := fun w prompt =>
       (if String.eqb prompt "Datadog API Key: " then Some "typed-api "
        else Some " typed-app", w);
     open_csv := fun w _ => (None, w);
     get_monitor := fun w _ _ => (None, w);
     write_json := fun w _ _ => (true, w);
     glob := fun w _ => ([], w);
     read_json := fun w _ => (None, w);
     create_monitor := fun w _ _ => (None, w) |}.

End More_monitors.

(** * Properties of the string helpers *)

Lemma truthy_true (s : string) : truthy s = true <-> s <> "".
Proof. destruct s; simpl; split; congruence. Qed.

Lemma truthy_false (s : string) : truthy s = false <-> s = "".
Proof. destruct s; simpl; split; congruence. Qed.

(** * Properties of the provisioning handler *)

Module Provisioning_facts.
Import Provisioning.

Lemma calls_app (t1 t2 : list event) : calls (t1 ++ t2) = (calls t1 ++ calls t2)%list.
Proof.
  induction t1 as [|[c|l] t1 IH]; simpl; [reflexivity | f_equal; exact IH | exact IH].
Qed.

Lemma count_app (p : call -> bool) (t1 t2 : list event) :
  count p (t1 ++ t2) = count p t1 + count p t2.
Proof. unfold count. now rewrite calls_app, filter_app, length_app. Qed.

Section Facts.
Context `{PyStr}.
Context {World : Type}.
Variable respond : World -> call -> response * World.

(** A request leaves exactly its call in the trace. *)
Lemma request_trace (c : call) (w : World) :
  snd (request respond c w) = [Call c].
Proof. unfold request. now destruct (respond w c). Qed.

Lemma request_answer (c : call) (w w1 : World) (r : response) :
  respond w c = (r, w1) ->
  request respond c w =
    (match r with Raises => Raise (CallError c) | _ => Return r end, w1, [Call c]).
Proof. intros E. unfold request. now rewrite E. Qed.

Lemma bind_ret_l {A B} (a : A) (f : A -> M World B) (w : World) :
  bind (ret a) f w = f a w.
Proof. unfold bind, ret. now destruct (f a w) as [[r w1] t]. Qed.

(** The first user of a listing with the email, whatever the case. *)
Lemma find_first_match {A} (p : A -> bool) (pre post : list A) (x : A) :
  Forall (fun y => p y = false) pre -> p x = true ->
  List.find p (pre ++ x :: post) = Some x.
Proof.
  intros Hpre Hx. induction Hpre as [|y pre Hy _ IH]; simpl.
  - now rewrite Hx.
  - now rewrite Hy.
Qed.

Lemma find_no_match {A} (p : A -> bool) (l : list A) :
  Forall (fun y => p y = false) l -> List.find p l = None.
Proof.
  intros Hl. induction Hl as [|y l Hy _ IH]; simpl; [reflexivity | now rewrite Hy].
Qed.

(** ** [delete_user] *)

Lemma delete_user_not_found k email0 w w1 users :
  respond w (ListUsers k) = (Users users, w1) ->
  List.find (same_email email0) users = None ->
  delete_user respond k email0 w =
    (Return tt, w1, [Call (ListUsers k); Log (Warn_UserNotFound email0)]).
Proof.
  intros E F. unfold delete_user, logging, try_except, bind.
  rewrite (request_answer _ _ _ _ E). cbn. now rewrite F.
Qed.

Lemma delete_user_found k email0 w w1 w2 users u rd :
  respond w (ListUsers k) = (Users users, w1) ->
  List.find (same_email email0) users = Some u ->
  respond w1 (DisableUser k (user_id u)) = (rd, w2) ->
  delete_user respond k email0 w =
    match rd with
    | Disabled =>
        (Return tt, w2,
         [Call (ListUsers k); Call (DisableUser k (user_id u)); Log (Info_DeleteUser email0)])
    | _ =>
        (Raise (CallError (DisableUser k (user_id u))), w2,
         [Call (ListUsers k); Call (DisableUser k (user_id u)); Log (Exc_FailedDelete email0)])
    end.
Proof.
  intros E F D. unfold delete_user, logging, try_except, bind.
  rewrite (request_answer _ _ _ _ E). cbn. rewrite F.
  rewrite (request_answer _ _ _ _ D). now destruct rd.
Qed.

(** ** [create_and_invite_user] *)

Lemma create_fails k name0 email0 rid w w1 rc :
  respond w (CreateUser k name0 email0 rid) = (rc, w1) ->
  (forall uid st, rc <> Created uid st) ->
  create_and_invite_user respond k name0 email0 rid w =
    (Raise (CallError (CreateUser k name0 email0 rid)), w1,
     [Call (CreateUser k name0 email0 rid); Log (Exc_FailedCreate email0)]).
Proof.
  intros E N. unfold create_and_invite_user, logging, try_except, bind.
  rewrite (request_answer _ _ _ _ E).
  destruct rc; cbn; try reflexivity. now destruct (N user_id0 status).
Qed.

Lemma create_then_invite k name0 email0 rid w w1 w2 uid st ri :
  respond w (CreateUser k name0 email0 rid) = (Created uid st, w1) ->
  respond w1 (SendInvite k uid) = (ri, w2) ->
  create_and_invite_user respond k name0 email0 rid w =
    match ri with
    | Invited n =>
        (Return tt, w2,
         [Call (CreateUser k name0 email0 rid); Log (Info_CreateUser email0 st);
          Call (SendInvite k uid); Log (Info_SendInvite email0 n)])
    | _ =>
        (Raise (CallError (SendInvite k uid)), w2,
         [Call (CreateUser k name0 email0 rid); Log (Info_CreateUser email0 st);
          Call (SendInvite k uid); Log (Exc_FailedInvite email0)])
    end.
Proof.
  intros E I. unfold create_and_invite_user, logging, try_except, bind.
  rewrite (request_answer _ _ _ _ E). cbn.
  rewrite (request_answer _ _ _ _ I). now destruct ri.
Qed.

(** ** The loop body on a row that passes validation *)

Lemma process_row_valid md org_map role_cache r w e0 o0 r0 k :
  get_or_empty (row_email r) = Some e0 ->
  get_or_empty (row_org r) = Some o0 ->
  get_or_empty (row_role r) = Some r0 ->
  strip e0 <> "" -> strip o0 <> "" -> strip r0 <> "" ->
  org_map !! strip o0 = Some k ->
  process_row respond md org_map role_cache r w =
    bind (resolve_role respond k (strip o0) (strip r0) role_cache)
         (provision respond md k (name_of r (strip e0)) (strip e0)) w.
Proof.
  intros Ee Eo Er Te To Tr Ek.
  apply truthy_true in Te, To, Tr.
  unfold process_row. rewrite Ee. cbn [strip_val]. rewrite bind_ret_l, Te. cbn [negb].
  rewrite Eo. cbn [strip_val]. rewrite bind_ret_l.
  rewrite Er. cbn [strip_val]. rewrite bind_ret_l, To, Tr. cbn [negb orb].
  now rewrite Ek.
Qed.

(** ** The role cache *)

Lemma _get_role_id_calls k rl w :
  calls (snd (_get_role_id respond k rl w)) = [ListRoles k].
Proof.
  unfold _get_role_id, bind, request.
  destruct (respond w (ListRoles k)) as [r w1].
  destruct r; try reflexivity. cbn.
  destruct (300 <=? status)%Z; [reflexivity|].
  now destruct (List.find _ roles).
Qed.

Lemma _get_role_id_found k rl w w1 st pre r post :
  respond w (ListRoles k) = (Roles st (pre ++ r :: post), w1) ->
  (st < 300)%Z ->
  Forall (fun r' => lower (role_name r') <> lower rl) pre ->
  lower (role_name r) = lower rl ->
  _get_role_id respond k rl w = (Return (role_id r), w1, [Call (ListRoles k)]).
Proof.
  intros E St Pre Hit. unfold _get_role_id, bind.
  rewrite (request_answer _ _ _ _ E). cbn.
  destruct (Z.leb_spec 300 st) as [?|_]; [lia|].
  rewrite (find_first_match (same_role rl) pre post r); [reflexivity | | ].
  - eapply Forall_impl; [exact Pre|]. intros r' N. unfold same_role.
    now apply String.eqb_neq.
  - unfold same_role. now apply String.eqb_eq.
Qed.

Lemma defaultdict_get_spec d key :
  exists d1, defaultdict_get d key = (cached d key, d1)
             /\ (forall key', cached d1 key' = cached d key')
             /\ (forall v, d !! key = Some v -> d1 = d)
             /\ is_Some (d1 !! key).
Proof.
  unfold defaultdict_get, cached. destruct (d !! key) as [v|] eqn:E.
  - exists d. cbn. split; [reflexivity|]. split; [reflexivity|].
    split; [reflexivity|]. rewrite E. eauto.
  - exists (<[key := ""]> d). cbn. split; [reflexivity|]. split; [|split].
    + intros key'. destruct (decide (key = key')) as [<-|N].
      * now rewrite lookup_insert_eq, E.
      * now rewrite lookup_insert_ne.
    + discriminate.
    + rewrite lookup_insert_eq. eauto.
Qed.

Lemma resolve_role_hit k o rl d w :
  cached d (o, rl) <> "" ->
  resolve_role respond k o rl d w = (Return (Some (cached d (o, rl)), d), w, []).
Proof.
  intros T. unfold resolve_role, defaultdict_get. revert T. unfold cached.
  destruct (d !! (o, rl)) as [v|]; cbn; [|congruence].
  intros T. apply truthy_true in T. now rewrite T.
Qed.

Lemma resolve_role_miss (k : keys) (o rl : string)
    (d : gmap (string * string) string) (w : World) :
  cached d (o, rl) = "" ->
  exists d1 : gmap (string * string) string,
    (forall key', cached d1 key' = cached d key') /\
    resolve_role respond k o rl d w =
      match _get_role_id respond k rl w with
      | (Return id0, w1, t) => (Return (Some id0, <[(o, rl) := id0]> d1), w1, t)
      | (Raise e, w1, t) =>
          (Return (None, d1), w1, (t ++ [Log (Exc_RoleLookup o rl)])%list)
      end.
Proof.
  intros F. destruct (defaultdict_get_spec d (o, rl)) as (d1 & E & Same & _).
  exists d1. split; [exact Same|].
  unfold resolve_role. rewrite E, F. cbn [truthy].
  unfold try_except, bind.
  destruct (_get_role_id respond k rl w) as [[[id0|e] w1] t]; cbn.
  - now rewrite app_nil_r.
  - reflexivity.
Qed.

Lemma bind_inv {A B} (m : M World A) (f : A -> M World B)
    (w w' : World) (b : B) (t : list event) :
  bind m f w = (Return b, w', t) ->
  exists a w1 t1 t2,
    m w = (Return a, w1, t1) /\ f a w1 = (Return b, w', t2) /\ t = (t1 ++ t2)%list.
Proof.
  unfold bind. destruct (m w) as [[[a|e] w1] t1]; [|discriminate].
  destruct (f a w1) as [[r2 w2] t2] eqn:F. intros [= -> -> <-].
  exists a, w1, t1, t2. now rewrite F.
Qed.

Lemma resolve_role_returns (k : keys) (o rl : string)
    (d : gmap (string * string) string) (w : World) :
  exists res d' w' t, resolve_role respond k o rl d w = (Return (res, d'), w', t).
Proof.
  destruct (decide (cached d (o, rl) = "")) as [F|T].
  - destruct (resolve_role_miss k o rl d w F) as (d1 & _ & ->).
    destruct (_get_role_id respond k rl w) as [[[id0|e] w1] t]; eauto.
  - rewrite (resolve_role_hit _ _ _ _ _ T). eauto.
Qed.

(** An identifier in the cache stays there. *)
Lemma resolve_role_keeps (k : keys) (o rl : string)
    (d d' : gmap (string * string) string) (w w' : World) (res : option string) t :
  resolve_role respond k o rl d w = (Return (res, d'), w', t) ->
  forall key, cached d key <> "" -> cached d' key = cached d key.
Proof.
  intros E key T. destruct (decide (cached d (o, rl) = "")) as [F|T'].
  - destruct (resolve_role_miss k o rl d w F) as (d1 & Same & E').
    rewrite E' in E. destruct (_get_role_id respond k rl w) as [[[id0|e] w1] t1].
    + injection E as _ <- _ _. unfold cached at 1.
      rewrite lookup_insert_ne; [apply Same | congruence].
    + injection E as _ <- _ _. apply Same.
  - rewrite (resolve_role_hit _ _ _ _ _ T') in E. now injection E as _ <- _ _.
Qed.

Lemma provision_returns (md : mode) (k : keys) (n e : string) (res : option string)
    (d : gmap (string * string) string) (w : World) :
  exists o w' t, provision respond md k n e (res, d) w = (Return (o, d), w', t).
Proof.
  unfold provision, try_except, bind, log, ret.
  destruct res as [rid|]; [destruct md|]; eauto.
  - destruct (create_and_invite_user respond k n e rid w) as [[[u|x] w1] t1]; eauto.
  - destruct (delete_user respond k e w) as [[[u|x] w1] t1]; eauto.
Qed.

Lemma process_row_keeps (md : mode) (org_map : gmap string keys)
    (d d' : gmap (string * string) string) (r : row)
    (w w' : World) (o : outcome) (t : list event) :
  process_row respond md org_map d r w = (Return (o, d'), w', t) ->
  forall key, cached d key <> "" -> cached d' key = cached d key.
Proof.
  unfold process_row.
  destruct (get_or_empty (row_email r)) as [e0|]; cbn [strip_val];
    [rewrite bind_ret_l | discriminate].
  destruct (truthy (strip e0)); cbn [negb]; [|now intros [= _ <- _ _]].
  destruct (get_or_empty (row_org r)) as [o0|]; cbn [strip_val];
    [rewrite bind_ret_l | discriminate].
  destruct (get_or_empty (row_role r)) as [r0|]; cbn [strip_val];
    [rewrite bind_ret_l | discriminate].
  destruct (negb (truthy (strip o0)) || negb (truthy (strip r0)));
    [now intros [= _ <- _ _]|].
  destruct (org_map !! strip o0) as [k|]; [|now intros [= _ <- _ _]].
  intros E. apply bind_inv in E as ([res d1] & w1 & t1 & t2 & E1 & E2 & _).
  destruct (provision_returns md k (name_of r (strip e0)) (strip e0) res d1 w1)
    as (o' & w2 & t' & P).
  rewrite P in E2. injection E2 as _ <- _ _.
  exact (resolve_role_keeps _ _ _ _ _ _ _ _ _ E1).
Qed.

Lemma run_rows_keeps (md : mode) (org_map : gmap string keys) (rows : list row) :
  forall (d d' : gmap (string * string) string) (w w' : World)
         (os : list outcome) (t : list event),
  run_rows respond md org_map d rows w = (Return (os, d'), w', t) ->
  forall key, cached d key <> "" -> cached d' key = cached d key.
Proof.
  induction rows as [|r rows IH]; cbn [run_rows]; intros d d' w w' os t E key T.
  - now injection E as _ <- _ _.
  - apply bind_inv in E as ([o d1] & w1 & t1 & t2 & E1 & E2 & _).
    apply bind_inv in E2 as ([os' d2] & w2 & t3 & t4 & E2 & E3 & _).
    injection E3 as _ <- _ _.
    pose proof (process_row_keeps _ _ _ _ _ _ _ _ _ E1 key T) as K1.
    rewrite <- K1. apply (IH _ _ _ _ _ _ E2). now rewrite K1.
Qed.

(** A row with no [None] under the columns read never raises. *)
Lemma process_row_returns (md : mode) (org_map : gmap string keys)
    (d : gmap (string * string) string) (r : row) (w : World) :
  row_email r <> Null -> row_org r <> Null -> row_role r <> Null ->
  exists o d' w' t, process_row respond md org_map d r w = (Return (o, d'), w', t).
Proof.
  intros Ne No Nr. unfold process_row.
  destruct (row_email r) as [| |e0]; [|congruence|]; cbn [get_or_empty strip_val];
    rewrite bind_ret_l.
  all: destruct (truthy (strip _)); cbn [negb]; [|unfold bind, log, ret; cbn; eauto].
  all: destruct (row_org r) as [| |o0]; [|congruence|]; cbn [get_or_empty strip_val];
    rewrite bind_ret_l.
  all: destruct (row_role r) as [| |r0]; [|congruence|]; cbn [get_or_empty strip_val];
    rewrite bind_ret_l.
  all: destruct (negb (truthy (strip _)) || negb (truthy (strip _)));
    [unfold bind, log, ret; cbn; eauto|].
  all: destruct (org_map !! strip _) as [k|]; [|unfold bind, log, ret; cbn; eauto].
  all: match goal with
       | |- context [resolve_role respond ?k ?o ?rl ?d] =>
           destruct (resolve_role_returns k o rl d w) as (res & d1 & w1 & t1 & E)
       end.
  all: match goal with
       | |- context [provision respond ?md ?k ?n ?e] =>
           destruct (provision_returns md k n e res d1 w1) as (o' & w2 & t2 & P)
       end.
  all: unfold bind; rewrite E, P; eauto.
Qed.

Lemma run_rows_returns (md : mode) (org_map : gmap string keys) (rows : list row) :
  Forall (fun r => row_email r <> Null /\ row_org r <> Null /\ row_role r <> Null) rows ->
  forall (d : gmap (string * string) string) (w : World),
  exists os d' w' t,
    run_rows respond md org_map d rows w = (Return (os, d'), w', t)
    /\ length os = length rows.
Proof.
  induction 1 as [|r rows (Ne & No & Nr) _ IH]; intros d w; cbn [run_rows].
  - unfold ret. eauto 6.
  - destruct (process_row_returns md org_map d r w Ne No Nr) as (o & d1 & w1 & t1 & E).
    destruct (IH d1 w1) as (os & d2 & w2 & t2 & E2 & L).
    unfold bind, ret. rewrite E, E2. cbn. exists (o :: os), d2, w2. eexists.
    split; [reflexivity|]. cbn. now rewrite L.
Qed.

Lemma _get_role_id_trace (k : keys) (rl : string) (w : World) :
  snd (_get_role_id respond k rl w) = [Call (ListRoles k)].
Proof.
  unfold _get_role_id, bind, request.
  destruct (respond w (ListRoles k)) as [r w1].
  destruct r; try reflexivity. cbn.
  destruct (300 <=? status)%Z; [reflexivity|].
  now destruct (List.find _ roles).
Qed.

(** ** The claims on the delete flow *)

(** C8: in [delete_user], when no user of the listing has the email
    (compared in lower case), the function logs the "user not found"
    warning and returns without an exception and without a disable call;
    when a user has it, exactly one disable call is issued, for the first
    such user of the listing. *)
Theorem delete_user_search_then_disable (k : keys) (email0 : string)
    (w w1 : World) (users : list user) :
  respond w (ListUsers k) = (Users users, w1) ->
  (Forall (fun u => lower (user_email u) <> lower email0) users ->
     delete_user respond k email0 w =
       (Return tt, w1, [Call (ListUsers k); Log (Warn_UserNotFound email0)])
     /\ count is_disable (snd (delete_user respond k email0 w)) = 0)
  /\
  (forall (pre post : list user) (u : user) (rd : response) (w2 : World),
     users = (pre ++ u :: post)%list ->
     Forall (fun u' => lower (user_email u') <> lower email0) pre ->
     lower (user_email u) = lower email0 ->
     respond w1 (DisableUser k (user_id u)) = (rd, w2) ->
     exists r t,
       delete_user respond k email0 w = (r, w2, t)
       /\ calls t = [ListUsers k; DisableUser k (user_id u)]
       /\ count is_disable t = 1
       /\ (r = Return tt <-> rd = Disabled)).
Proof.
  intros E. split.
  - intros N.
    assert (F : List.find (same_email email0) users = None).
    { apply find_no_match. eapply Forall_impl; [exact N|].
      intros u Hu. unfold same_email. now apply String.eqb_neq. }
    rewrite (delete_user_not_found _ _ _ _ _ E F). split; reflexivity.
  - intros pre post u rd w2 -> Pre Hit D.
    assert (F : List.find (same_email email0) (pre ++ u :: post) = Some u).
    { apply find_first_match.
      - eapply Forall_impl; [exact Pre|]. intros u' Hu. unfold same_email.
        now apply String.eqb_neq.
      - unfold same_email. now apply String.eqb_eq. }
    rewrite (delete_user_found _ _ _ _ _ _ _ _ E F D).
    destruct rd; eexists _, _; (split; [reflexivity|]);
      (split; [reflexivity|]); (split; [reflexivity|]);
      split; congruence.
Qed.


(** ** The claims on the create flow *)

(** C2, as the code has it: a Create row that passes validation, with a
    known org and a resolved role, issues exactly one create call; an
    invite call follows it exactly when the create call succeeds.  The row
    is [Succeeded] only when both calls succeed.  When the create
    succeeds and the invite fails the row is failed with the error of the
    invite, and the trace ends with the log statements: no call undoes the
    creation. *)
Theorem create_row_create_then_invite (org_map : gmap string keys)
    (d d1 : gmap (string * string) string) (r : row) (w w1 w2 : World)
    (e0 o0 r0 : string) (k : keys) (rid : string) (t1 : list event) (rc : response) :
  get_or_empty (row_email r) = Some e0 ->
  get_or_empty (row_org r) = Some o0 ->
  get_or_empty (row_role r) = Some r0 ->
  strip e0 <> "" -> strip o0 <> "" -> strip r0 <> "" ->
  org_map !! strip o0 = Some k ->
  resolve_role respond k (strip o0) (strip r0) d w = (Return (Some rid, d1), w1, t1) ->
  let create := CreateUser k (name_of r (strip e0)) (strip e0) rid in
  respond w1 create = (rc, w2) ->
  exists (o : outcome) (w' : World) (t2 : list event),
    process_row respond Create org_map d r w = (Return (o, d1), w', (t1 ++ t2)%list)
    /\ count is_create t2 = 1
    /\ count is_disable t2 = 0
    /\ match rc with
       | Created uid st =>
           calls t2 = [create; SendInvite k uid]
           /\ match fst (respond w2 (SendInvite k uid)) with
              | Invited _ => o = Succeeded
              | _ => o = CreateInviteError (CallError (SendInvite k uid))
              end
       | _ => calls t2 = [create] /\ o = CreateInviteError (CallError create)
       end.
Proof.
  intros Ee Eo Er Te To Tr Ek Res create Ec.
  rewrite (process_row_valid Create org_map d r w e0 o0 r0 k Ee Eo Er Te To Tr Ek).
  unfold bind at 1. rewrite Res. unfold provision, try_except, bind at 1.
  assert (Created_or_not : (exists uid st, rc = Created uid st)
                           \/ (forall uid st, rc <> Created uid st)).
  { destruct rc; try (right; discriminate). left; eauto. }
  destruct Created_or_not as [(uid & st & ->) | N].
  - destruct (respond w2 (SendInvite k uid)) as [ri w3] eqn:Ei.
    rewrite (create_then_invite _ _ _ _ _ _ _ _ _ _ Ec Ei).
    destruct ri; cbn; do 3 eexists; (split; [reflexivity|]); repeat split.
  - rewrite (create_fails _ _ _ _ _ _ _ Ec N). cbn.
    do 3 eexists. split; [reflexivity|].
    destruct rc as [| | | | |uid st| | |];
      try (exfalso; now apply (N uid st)); repeat split.
Qed.

(** A row rejected by the validation leaves the cache and the world as
    they were and calls nothing: the rows after it run as if it were not
    there. *)
Lemma validation_error_changes_nothing (md : mode) (org_map : gmap string keys)
    (d d' : gmap (string * string) string) (r : row) (w w' : World) (t : list event) :
  process_row respond md org_map d r w = (Return (ValidationError, d'), w', t) ->
  d' = d /\ w' = w /\ calls t = [].
Proof.
  unfold process_row.
  destruct (get_or_empty (row_email r)) as [e0|]; cbn [strip_val];
    [rewrite bind_ret_l | discriminate].
  destruct (truthy (strip e0)); cbn [negb]; [|now intros [= <- <- <-]].
  destruct (get_or_empty (row_org r)) as [o0|]; cbn [strip_val];
    [rewrite bind_ret_l | discriminate].
  destruct (get_or_empty (row_role r)) as [r0|]; cbn [strip_val];
    [rewrite bind_ret_l | discriminate].
  destruct (negb (truthy (strip o0)) || negb (truthy (strip r0)));
    [now intros [= <- <- <-]|].
  destruct (org_map !! strip o0) as [k|]; [|discriminate].
  intros E. exfalso.
  apply bind_inv in E as ([res d1] & w1 & t1 & t2 & _ & E2 & _). revert E2.
  unfold provision, try_except, bind, log, ret.
  destruct res as [rid|]; [destruct md|]; try discriminate.
  - destruct (create_and_invite_user respond k _ _ rid w1) as [[[u|x] w2] t3];
      discriminate.
  - destruct (delete_user respond k _ w1) as [[[u|x] w2] t3]; discriminate.
Qed.

(** ** The claims on the role cache *)

Lemma resolve_role_retries (k : keys) (o rl : string)
    (d : gmap (string * string) string) (w : World) :
  cached d (o, rl) = "" ->
  calls (snd (resolve_role respond k o rl d w)) = [ListRoles k].
Proof.
  intros Miss. destruct (resolve_role_miss k o rl d w Miss) as (d1 & _ & ->).
  pose proof (_get_role_id_trace k rl w) as T.
  destruct (_get_role_id respond k rl w) as [[[id0|e] w1] t]; cbn in *; subst t;
    reflexivity.
Qed.

(** C3: for a key [(org, role)] of the cache of one run.  A lookup of a
    key that is not cached issues one role-listing call, takes the first
    role whose name equals the role name in lower case, stores its
    identifier under the key and returns it.  Once the cache holds an
    identifier for the key (identifiers are non-empty: the cache reads
    the empty string as "not cached"), a lookup returns it with no call,
    and it is still held after any rows of the run are processed.  A
    lookup that fails leaves no identifier under the key, and the next
    lookup of the key issues the listing call again. *)
Theorem role_cache_lookup (k : keys) (o rl : string)
    (d : gmap (string * string) string) :
  (forall (w w1 : World) (st : Z) (pre post : list role_json) (r : role_json),
     cached d (o, rl) = "" ->
     respond w (ListRoles k) = (Roles st (pre ++ r :: post), w1) ->
     (st < 300)%Z ->
     Forall (fun r' => lower (role_name r') <> lower rl) pre ->
     lower (role_name r) = lower rl ->
     exists d1 : gmap (string * string) string,
       resolve_role respond k o rl d w =
         (Return (Some (role_id r), d1), w1, [Call (ListRoles k)])
       /\ d1 !! (o, rl) = Some (role_id r))
  /\
  (forall id0 : string,
     cached d (o, rl) = id0 -> id0 <> "" ->
     (forall w : World,
        resolve_role respond k o rl d w = (Return (Some id0, d), w, []))
     /\
     (forall (md : mode) (org_map : gmap string keys) (rows : list row)
             (w w' : World) (os : list outcome)
             (d' : gmap (string * string) string) (t : list event),
        run_rows respond md org_map d rows w = (Return (os, d'), w', t) ->
        cached d' (o, rl) = id0
        /\ forall w2 : World,
             resolve_role respond k o rl d' w2 = (Return (Some id0, d'), w2, [])))
  /\
  (forall (w w1 : World) (e : exn) (t : list event),
     cached d (o, rl) = "" ->
     _get_role_id respond k rl w = (Raise e, w1, t) ->
     exists d1 : gmap (string * string) string,
       resolve_role respond k o rl d w =
         (Return (None, d1), w1, (t ++ [Log (Exc_RoleLookup o rl)])%list)
       /\ cached d1 (o, rl) = ""
       /\ forall w2 : World,
            calls (snd (resolve_role respond k o rl d1 w2)) = [ListRoles k]).
Proof.
  split; [|split].
  - intros w w1 st pre post r Miss E St Pre Hit.
    destruct (resolve_role_miss k o rl d w Miss) as (d1 & _ & ->).
    rewrite (_get_role_id_found _ _ _ _ _ _ _ _ E St Pre Hit).
    eexists. split; [reflexivity|]. apply lookup_insert_eq.
  - intros id0 <- T. split.
    + intros w. now apply resolve_role_hit.
    + intros md org_map rows w w' os d' t E.
      pose proof (run_rows_keeps _ _ _ _ _ _ _ _ _ E (o, rl) T) as K.
      split; [exact K|]. intros w2. rewrite <- K. apply resolve_role_hit.
      now rewrite K.
  - intros w w1 e t Miss E.
    destruct (resolve_role_miss k o rl d w Miss) as (d1 & Same & ->).
    rewrite E. exists d1. split; [reflexivity|].
    assert (Miss1 : cached d1 (o, rl) = "") by now rewrite Same.
    split; [exact Miss1|]. intros w2. now apply resolve_role_retries.
Qed.

(** C10: the cache key is the role name as the row has it.  For two role
    names of one org that differ but are equal in lower case, neither of
    them cached: the lookup of the first issues a role-listing call, the
    lookup of the second, made after it, issues one too, although the
    first result is in the cache; against the same listing both return
    the same identifier, and the cache ends with an entry under each of
    the two keys. *)
Theorem role_cache_key_keeps_case (k : keys) (o rl1 rl2 : string)
    (d : gmap (string * string) string) (w w1 w2 w3 : World) (st st' : Z)
    (pre post : list role_json) (r : role_json) :
  rl1 <> rl2 ->
  lower rl1 = lower rl2 ->
  cached d (o, rl1) = "" ->
  cached d (o, rl2) = "" ->
  respond w (ListRoles k) = (Roles st (pre ++ r :: post), w1) ->
  respond w2 (ListRoles k) = (Roles st' (pre ++ r :: post), w3) ->
  (st < 300)%Z -> (st' < 300)%Z ->
  Forall (fun r' => lower (role_name r') <> lower rl1) pre ->
  lower (role_name r) = lower rl1 ->
  exists d1 d2 : gmap (string * string) string,
    resolve_role respond k o rl1 d w =
      (Return (Some (role_id r), d1), w1, [Call (ListRoles k)])
    /\ resolve_role respond k o rl2 d1 w2 =
      (Return (Some (role_id r), d2), w3, [Call (ListRoles k)])
    /\ (o, rl1) <> (o, rl2)
    /\ cached d2 (o, rl1) = role_id r
    /\ cached d2 (o, rl2) = role_id r.
Proof.
  intros Ne Low Miss1 Miss2 E1 E2 St St' Pre Hit.
  destruct (resolve_role_miss k o rl1 d w Miss1) as (da & Same_a & R1).
  rewrite (_get_role_id_found _ _ _ _ _ _ _ _ E1 St Pre Hit) in R1.
  set (d1 := <[(o, rl1) := role_id r]> da) in *.
  assert (Miss2' : cached d1 (o, rl2) = "").
  { unfold cached, d1. rewrite lookup_insert_ne by congruence.
    fold (cached da (o, rl2)). now rewrite Same_a. }
  destruct (resolve_role_miss k o rl2 d1 w2 Miss2') as (db & Same_b & R2).
  rewrite Low in Pre, Hit.
  rewrite (_get_role_id_found _ _ _ _ _ _ _ _ E2 St' Pre Hit) in R2.
  exists d1, (<[(o, rl2) := role_id r]> db).
  split; [exact R1|]. split; [exact R2|]. split; [congruence|]. split.
  - unfold cached. rewrite lookup_insert_ne by congruence.
    fold (cached db (o, rl1)). rewrite Same_b. unfold cached, d1.
    now rewrite lookup_insert_eq.
  - unfold cached. now rewrite lookup_insert_eq.
Qed.

(** ** The claims on the batch *)

Lemma endswith_same_length (s a b : string) :
  String.length a = String.length b ->
  endswith s a = true -> endswith s b = true -> a = b.
Proof.
  unfold endswith. intros <-.
  destruct (String.length a <=? String.length s)%nat; [|discriminate].
  intros Ea Eb. apply String.eqb_eq in Ea, Eb. congruence.
Qed.

(** C5: the suffix of the key of the batch source chooses the mode:
    [create_user.csv] is Create, [delete_user.csv] is Delete.  With any
    other key the record is skipped: no row is processed and no call is
    made, so the source is not deleted.  With one of the two suffixes,
    when the loop over the rows has come to its end, whatever the
    outcomes of the rows, the delete call for the source is issued after
    the rows; when it fails the failure is logged and the outcomes of the
    rows are returned as they were. *)
Theorem batch_source_routing (org_map : gmap string keys)
    (d : gmap (string * string) string) (rec : s3_record) (w : World) :
  let bucket := rec_bucket rec in
  let key := unquote_plus (rec_key rec) in
  (endswith key "create_user.csv" = true -> mode_of key = Some Create)
  /\ (endswith key "delete_user.csv" = true -> mode_of key = Some Delete)
  /\ (endswith key "create_user.csv" = false ->
      endswith key "delete_user.csv" = false ->
      mode_of key = None
      /\ process_record respond org_map d rec w = (Return ([], d), w, []))
  /\ (forall (md : mode) (rows : list row) (os : list outcome)
             (d1 : gmap (string * string) string) (w1 w2 w3 : World)
             (t : list event) (rd : response),
        mode_of key = Some md ->
        respond w (GetObject bucket key) = (Body rows, w1) ->
        run_rows respond md org_map d rows w1 = (Return (os, d1), w2, t) ->
        respond w2 (DeleteObject bucket key) = (rd, w3) ->
        process_record respond org_map d rec w =
          (Return (os, d1), w3,
           (Call (GetObject bucket key) :: t ++
            Call (DeleteObject bucket key) ::
            match rd with Deleted => [] | _ => [Log (Exc_DeleteCsv key)] end)%list)).
Proof.
  intros bucket key. split; [|split; [|split]].
  - intros E. unfold mode_of. now rewrite E.
  - intros E. unfold mode_of.
    destruct (endswith key "create_user.csv") eqn:C; [|now rewrite E].
    now discriminate
      (endswith_same_length key "create_user.csv" "delete_user.csv" eq_refl C E).
  - intros C D. assert (M0 : mode_of key = None) by (unfold mode_of; now rewrite C, D).
    split; [exact M0|]. unfold process_record. fold key. now rewrite M0.
  - intros md rows os d1 w1 w2 w3 t rd M0 G R D.
    unfold process_record. fold key bucket. rewrite M0.
    unfold bind at 1. rewrite (request_answer _ _ _ _ G).
    unfold bind at 1. rewrite R.
    unfold bind, try_except. rewrite (request_answer _ _ _ _ D).
    destruct rd; cbn; rewrite ?app_nil_r; reflexivity.
Qed.

(** A [None] under [org] or [role] is not caught by the validation: the
    exception of [None.strip()] leaves the loop body, and with it the
    loop over the rows. *)
Lemma null_cell_escapes (md : mode) (org_map : gmap string keys)
    (d : gmap (string * string) string) (r : row) (rows : list row)
    (w : World) (e0 : string) :
  get_or_empty (row_email r) = Some e0 -> strip e0 <> "" ->
  row_org r = Null \/ row_role r = Null ->
  run_rows respond md org_map d (r :: rows) w = (Raise AttributeError, w, []).
Proof.
  intros Ee Te N. apply truthy_true in Te. cbn [run_rows].
  unfold bind at 1. unfold process_row.
  rewrite Ee. cbn [strip_val]. rewrite bind_ret_l, Te. cbn [negb].
  destruct (row_org r) as [| |o0] eqn:Eo; cbn [get_or_empty strip_val].
  - destruct N as [N|N]; [discriminate|]. rewrite bind_ret_l, N. reflexivity.
  - reflexivity.
  - destruct N as [N|N]; [discriminate|]. rewrite bind_ret_l, N. reflexivity.
Qed.

End Facts.

(** ** The claims at concrete rows *)

Import Provisioning_examples.



(** C2 as stated fails: the row is valid, the org is known and the role
    resolves to ["42"]; the create call raises, and no invite call is
    issued. *)
Lemma create_failure_sends_no_invite :
  let run := process_row (H := ascii_str) (stateless (create_down [])) Create org_map1 ∅
               row_create tt in
  calls (snd run) = [ListRoles acme; CreateUser acme "a@x.com" "a@x.com" "42"]
  /\ count is_create (snd run) = 1
  /\ count is_invite (snd run) = 0.
Proof. repeat split; vm_compute; reflexivity. Qed.

Lemma create_row_create_then_invite_witness :
  exists (o : outcome) (t2 : list event),
    process_row (H := ascii_str) (stateless (invite_down [])) Create org_map1 ∅
        row_create tt
      = (Return (o, <[("acme", "Admin") := "42"]> (<[("acme", "Admin") := ""]> ∅)), tt,
         (Call (ListRoles acme) :: t2))
    /\ calls t2 = [CreateUser acme "a@x.com" "a@x.com" "42"; SendInvite acme "id-a@x.com"]
    /\ count is_disable t2 = 0
    /\ o = CreateInviteError (CallError (SendInvite acme "id-a@x.com")).
Proof.
  destruct (create_row_create_then_invite (H := ascii_str) (stateless (invite_down []))
              org_map1 ∅ (<[("acme", "Admin") := "42"]> (<[("acme", "Admin") := ""]> ∅))
              row_create tt tt tt "a@x.com" "acme" "Admin" acme "42"
              [Call (ListRoles acme)] (Created "id-a@x.com" "Pending")
              eq_refl eq_refl eq_refl
              ltac:(vm_compute; discriminate) ltac:(vm_compute; discriminate)
              ltac:(vm_compute; discriminate)
              eq_refl ltac:(vm_compute; reflexivity) eq_refl)
    as (o & w' & t2 & E & _ & D & C & O).
  destruct w'. exists o, t2. split; [exact E|]. split; [exact C|]. split; [exact D|].
  exact O.
Defined.

(** C4 fails on a short row.  The CSV has two rows under the header
    [email,name,org,role]: [a@x.com] alone, then a complete row.  The
    reader gives [None] for the org of the first row, [None.strip()]
    raises outside every [try], and the exception leaves the handler:
    the second row is never attempted (no create call) and the CSV is
    not deleted. *)
Theorem short_row_aborts_batch :
  lambda_handler (H := ascii_str) (stateless (healthy [row_short; row_create]))
      [record_create] tt
    = (Raise AttributeError, tt,
       [Call GetSecretValue; Call (GetObject "inbox" "in/create_user.csv")])
  /\ lambda_handler (H := ascii_str) (stateless (healthy [row_no_email; row_create]))
      [record_create] tt
    = (Return [[ValidationError; Succeeded]], tt,
       [Call GetSecretValue; Call (GetObject "inbox" "in/create_user.csv");
        Log (Err_MissingEmail row_no_email);
        Call (ListRoles acme);
        Call (CreateUser acme "a@x.com" "a@x.com" "42");
        Log (Info_CreateUser "a@x.com" "Pending");
        Call (SendInvite acme "id-a@x.com");
        Log (Info_SendInvite "a@x.com" 1);
        Call (DeleteObject "inbox" "in/create_user.csv")]).
Proof. split; vm_compute; reflexivity. Qed.

Lemma delete_user_search_then_disable_witness :
  delete_user (H := ascii_str) (stateless (healthy [])) acme "b@x.com" tt
    = (Return tt, tt, [Call (ListUsers acme); Log (Warn_UserNotFound "b@x.com")])
  /\ exists (r : result unit) (t : list event),
       delete_user (H := ascii_str) (stateless (healthy [])) acme "c@x.com" tt = (r, tt, t)
       /\ calls t = [ListUsers acme; DisableUser acme "u2"]
       /\ count is_disable t = 1.
Proof.
  pose proof (delete_user_search_then_disable (H := ascii_str) (stateless (healthy []))
                acme "b@x.com" tt tt users1 eq_refl) as [Absent_ _].
  pose proof (delete_user_search_then_disable (H := ascii_str) (stateless (healthy []))
                acme "c@x.com" tt tt users1 eq_refl) as [_ Found].
  split.
  - apply Absent_. repeat constructor; vm_compute; discriminate.
  - destruct (Found [user_a] [] user_c Disabled tt eq_refl
                ltac:(repeat constructor; vm_compute; discriminate)
                ltac:(vm_compute; reflexivity) eq_refl)
      as (r & t & E & C & N & _).
    exists r, t. split; [exact E|]. split; [exact C | exact N].
Defined.

Lemma role_cache_lookup_witness :
  (exists d1 : gmap (string * string) string,
     resolve_role (H := ascii_str) (stateless (healthy [])) acme "acme" "admin" ∅ tt
       = (Return (Some "42", d1), tt, [Call (ListRoles acme)])
     /\ d1 !! ("acme", "admin") = Some "42")
  /\ (forall w : unit,
        resolve_role (H := ascii_str) (stateless (healthy [])) acme "acme" "admin"
          {[ ("acme", "admin") := "42" ]} w
        = (Return (Some "42", {[ ("acme", "admin") := "42" ]}), w, []))
  /\ (exists d1 : gmap (string * string) string,
        resolve_role (H := ascii_str) (stateless (roles_down [])) acme "acme" "admin" ∅ tt
          = (Return (None, d1), tt,
             [Call (ListRoles acme); Log (Exc_RoleLookup "acme" "admin")])
        /\ cached d1 ("acme", "admin") = ""
        /\ forall w2 : unit,
             calls (snd (resolve_role (H := ascii_str) (stateless (roles_down [])) acme
                           "acme" "admin" d1 w2)) = [ListRoles acme]).
Proof.
  split; [|split].
  - apply (proj1 (role_cache_lookup (H := ascii_str) (stateless (healthy []))
                    acme "acme" "admin" ∅)
             tt tt 200%Z [read_only] [] admin);
      [reflexivity | reflexivity | lia
      | repeat constructor; vm_compute; discriminate | reflexivity].
  - apply (proj1 (proj2 (role_cache_lookup (H := ascii_str) (stateless (healthy []))
                           acme "acme" "admin" {[ ("acme", "admin") := "42" ]}))
             "42"); [vm_compute; reflexivity | discriminate].
  - apply (proj2 (proj2 (role_cache_lookup (H := ascii_str) (stateless (roles_down []))
                           acme "acme" "admin" ∅))
             tt tt (RuntimeError 503) [Call (ListRoles acme)]);
      [reflexivity | vm_compute; reflexivity].
Defined.

Lemma role_cache_key_keeps_case_witness :
  exists d1 d2 : gmap (string * string) string,
    resolve_role (H := ascii_str) (stateless (healthy [])) acme "acme" "Admin" ∅ tt
      = (Return (Some "42", d1), tt, [Call (ListRoles acme)])
    /\ resolve_role (H := ascii_str) (stateless (healthy [])) acme "acme" "admin" d1 tt
      = (Return (Some "42", d2), tt, [Call (ListRoles acme)])
    /\ ("acme", "Admin") <> ("acme", "admin")
    /\ cached d2 ("acme", "Admin") = "42"
    /\ cached d2 ("acme", "admin") = "42".
Proof.
  apply (role_cache_key_keeps_case (H := ascii_str) (stateless (healthy []))
           acme "acme" "Admin" "admin" ∅ tt tt tt tt 200%Z 200%Z
           [read_only] [] admin);
    [discriminate | reflexivity | reflexivity | reflexivity | reflexivity | reflexivity
    | lia | lia | repeat constructor; vm_compute; discriminate | reflexivity].
Defined.

(** The two rows of C10 in one batch: two listing calls. *)
Example two_cases_two_listings :
  count is_list_roles
    (snd (run_rows (H := ascii_str) (stateless (healthy [])) Delete org_map1 ∅
            [row_delete;
             {| row_email := Str "a@x.com"; row_name := Absent;
                row_org := Str "acme"; row_role := Str "ADMIN" |};
             row_delete] tt)) = 2.
Proof. vm_compute. reflexivity. Qed.

(** The limit of C3: an identifier that is the empty string is stored
    but read back as "not cached", and the listing is called again. *)
Example empty_identifier_is_listed_again :
  let nameless (c : call) : response :=
    match c with
    | ListRoles _ => Roles 200 [{| role_name := "Admin"; role_id := "" |}]
    | _ => Raises
    end in
  calls (snd (run_rows (H := ascii_str) (stateless nameless) Delete org_map1 ∅
                [row_delete; row_delete] tt))
  = [ListRoles acme; ListUsers acme; ListRoles acme; ListUsers acme].
Proof. vm_compute. reflexivity. Qed.

Lemma batch_source_routing_witness :
  mode_of "in/create_user.csv" = Some Create
  /\ mode_of "in/delete_user.csv" = Some Delete
  /\ process_record (H := ascii_str) (stateless (healthy [row_create])) org_map1 ∅
       record_other tt = (Return ([], ∅), tt, [])
  /\ exists d1 : gmap (string * string) string,
       process_record (H := ascii_str) (stateless (cleanup_down [row_no_email; row_create]))
         org_map1 ∅ record_create tt
       = (Return ([ValidationError; Succeeded], d1), tt,
          [Call (GetObject "inbox" "in/create_user.csv");
           Log (Err_MissingEmail row_no_email);
           Call (ListRoles acme);
           Call (CreateUser acme "a@x.com" "a@x.com" "42");
           Log (Info_CreateUser "a@x.com" "Pending");
           Call (SendInvite acme "id-a@x.com");
           Log (Info_SendInvite "a@x.com" 1);
           Call (DeleteObject "inbox" "in/create_user.csv");
           Log (Exc_DeleteCsv "in/create_user.csv")]).
Proof.
  pose proof (batch_source_routing (H := ascii_str) (stateless (healthy [row_create]))
                org_map1 ∅ record_other tt) as (_ & _ & Skip & _).
  pose proof (batch_source_routing (H := ascii_str)
                (stateless (cleanup_down [row_no_email; row_create]))
                org_map1 ∅ record_create tt) as (Cr & _ & _ & Run).
  pose proof (batch_source_routing (H := ascii_str) (stateless (healthy []))
                org_map1 ∅ {| rec_bucket := "inbox"; rec_key := "in/delete_user.csv" |} tt)
    as (_ & De & _ & _).
  split; [exact (Cr eq_refl)|]. split; [exact (De eq_refl)|].
  split; [exact (proj2 (Skip eq_refl eq_refl))|].
  assert (R : run_rows (H := ascii_str) (stateless (cleanup_down [row_no_email; row_create]))
                 Create org_map1 ∅ [row_no_email; row_create] tt
               = (Return ([ValidationError; Succeeded],
                          <[("acme", "Admin") := "42"]> (<[("acme", "Admin") := ""]> ∅)),
                  tt,
                  [Log (Err_MissingEmail row_no_email);
                   Call (ListRoles acme);
                   Call (CreateUser acme "a@x.com" "a@x.com" "42");
                   Log (Info_CreateUser "a@x.com" "Pending");
                   Call (SendInvite acme "id-a@x.com");
                   Log (Info_SendInvite "a@x.com" 1)]))
    by (vm_compute; reflexivity).
  eexists.
  exact (Run Create _ _ _ tt tt tt _ Raises eq_refl eq_refl R eq_refl).
Defined.

End Provisioning_facts.

(** * Properties of the pending-invite report *)

Module Pending_facts.
Import Pending.

Lemma requests_app (t1 t2 : list event) :
  requests (t1 ++ t2) = (requests t1 ++ requests t2)%list.
Proof.
  induction t1 as [|[r| | |u|l] t1 IH]; simpl; try exact IH.
  - reflexivity.
  - now rewrite IH.
Qed.

Lemma yields_app (t1 t2 : list event) :
  yields (t1 ++ t2) = (yields t1 ++ yields t2)%list.
Proof.
  induction t1 as [|[r| | |u|l] t1 IH]; simpl; try exact IH.
  - reflexivity.
  - now rewrite IH.
Qed.

Lemma prints_app (t1 t2 : list event) :
  prints (t1 ++ t2) = (prints t1 ++ prints t2)%list.
Proof.
  induction t1 as [|[r| | |u|l] t1 IH]; simpl; try exact IH.
  - reflexivity.
  - now rewrite IH.
Qed.

Lemma yields_Yield (data : list user_json) : yields (map Yield data) = data.
Proof. induction data as [|u data IH]; simpl; [reflexivity | now rewrite IH]. Qed.

Lemma requests_Yield (data : list user_json) : requests (map Yield data) = [].
Proof. induction data as [|u data IH]; simpl; [reflexivity | exact IH]. Qed.

Lemma prints_Yield (data : list user_json) : prints (map Yield data) = [].
Proof. induction data as [|u data IH]; simpl; [reflexivity | exact IH]. Qed.

Lemma len_append (a b : string) : len (a ++ b) = len a + len b.
Proof.
  induction a as [|c a IH]; [reflexivity|].
  change (len (String c (a ++ b)) = len (String c a) + len b).
  cbn [len]. rewrite IH. now destruct (continues c).
Qed.

Lemma len_spaces (n : nat) : len (spaces n) = n.
Proof. induction n as [|n IH]; [reflexivity|]. cbn. now rewrite IH. Qed.

Lemma len_ljust (width : nat) (s : string) :
  len (ljust width s) = Nat.max width (len s).
Proof. unfold ljust. rewrite len_append, len_spaces. lia. Qed.

Lemma name_or_dash_not_empty (n : option string) : name_or_dash n <> "".
Proof.
  destruct n as [s|]; simpl; [|discriminate].
  destruct s; simpl; discriminate.
Qed.

Section Facts.
Context `{PyStr}.
Variable DATADOG_SITE : string.
Context {World : Type}.
Variable respond : World -> request -> response * World.

(** ** One turn of the [while url:] loop *)

Lemma list_users_from_page (fuel : nat) (k : keys) (u : string)
    (p : option (Z * string)) (w w1 : World) (data : list user_json)
    (next : option string) :
  u <> "" ->
  respond w {| req_url := u; req_keys := k; req_params := p |} = (Page data next, w1) ->
  list_users_from respond (S fuel) k (Some u) p w =
    let '(st, w2, t) := list_users_from respond fuel k next None w1 in
    (st, w2,
     (Request {| req_url := u; req_keys := k; req_params := p |} :: map Yield data ++ t)%list).
Proof.
  intros T E. apply truthy_true in T. cbn [list_users_from]. rewrite T. cbn [negb].
  now rewrite E.
Qed.

Lemma list_users_from_stop (fuel : nat) (k : keys) (next : option string)
    (p : option (Z * string)) (w : World) :
  url_truthy next = false ->
  list_users_from respond fuel k next p w = (Return tt, w, []).
Proof.
  intros F. destruct next as [u|]; [|now destruct fuel].
  cbn in F. destruct fuel; cbn; now rewrite F.
Qed.

Lemma list_users_from_error (fuel : nat) (k : keys) (u : string)
    (p : option (Z * string)) (w w1 : World) :
  u <> "" ->
  respond w {| req_url := u; req_keys := k; req_params := p |} = (GetError, w1) ->
  list_users_from respond (S fuel) k (Some u) p w =
    (Raise, w1,
     [Request {| req_url := u; req_keys := k; req_params := p |};
      LogRequestFailed; LogResponseContent]).
Proof.
  intros T E. apply truthy_true in T. cbn [list_users_from]. rewrite T. cbn [negb].
  now rewrite E.
Qed.

Lemma first_url_not_empty : first_url DATADOG_SITE <> "".
Proof. unfold first_url. cbn. discriminate. Qed.

(** Nothing is printed while the users are listed. *)
Lemma list_users_from_prints (fuel : nat) (k : keys) :
  forall (url : option string) (p : option (Z * string)) (w : World),
  prints (snd (list_users_from respond fuel k url p w)) = [].
Proof.
  induction fuel as [|fuel IH]; intros url p w; cbn [list_users_from].
  - destruct url as [u|]; [|reflexivity]. now destruct (negb (truthy u)).
  - destruct url as [u|]; [|reflexivity].
    destruct (negb (truthy u)); [reflexivity|].
    destruct (respond w _) as [[|data next] w1]; [reflexivity|].
    specialize (IH next None w1).
    destruct (list_users_from respond fuel k next None w1) as [[st w2] t].
    cbn in *. now rewrite prints_app, prints_Yield, IH.
Qed.

Lemma fetch_invite_pending_prints (fuel : nat) (org : string) (k : keys) (w : World) :
  prints (snd (fetch_invite_pending DATADOG_SITE respond fuel org k w)) = [].
Proof.
  unfold fetch_invite_pending, list_users.
  pose proof (list_users_from_prints fuel k (Some (first_url DATADOG_SITE))
                (Some (PAGE_SIZE, "Pending")) w) as P.
  destruct (list_users_from _ _ _ _ _ w) as [[[[]| |] w1] t]; exact P.
Qed.

Lemma fetch_all_prints (fuel : nat) (orgs : list (string * keys)) :
  forall w : World, prints (snd (fetch_all DATADOG_SITE respond fuel orgs w)) = [].
Proof.
  induction orgs as [|[org k] orgs IH]; intros w; cbn [fetch_all]; [reflexivity|].
  pose proof (fetch_invite_pending_prints fuel org k w) as P.
  destruct (fetch_invite_pending DATADOG_SITE respond fuel org k w) as [[[users| |] w1] t1];
    try exact P.
  specialize (IH w1).
  destruct (fetch_all DATADOG_SITE respond fuel orgs w1) as [[r2 w2] t2].
  cbn in *. now rewrite prints_app, P, IH.
Qed.

(** The tenants before a failing one do not save the report. *)
Lemma fetch_all_raises (fuel : nat) (before after : list (string * keys))
    (org : string) (k : keys) :
  forall (w w1 w2 : World) (report : list (string * list pending_user))
         (t1 t2 : list event),
  fetch_all DATADOG_SITE respond fuel before w = (Return report, w1, t1) ->
  list_users DATADOG_SITE respond fuel k w1 = (Raise, w2, t2) ->
  fetch_all DATADOG_SITE respond fuel (before ++ (org, k) :: after) w =
    (Raise, w2, (t1 ++ t2)%list).
Proof.
  induction before as [|[org0 k0] before IH]; intros w w1 w2 report t1 t2 B L.
  - cbn in B. injection B as _ <- <-. cbn [app fetch_all].
    unfold fetch_invite_pending. now rewrite L.
  - cbn [app fetch_all] in *.
    destruct (fetch_invite_pending DATADOG_SITE respond fuel org0 k0 w)
      as [[[users| |] wa] ta]; try discriminate.
    destruct (fetch_all DATADOG_SITE respond fuel before wa) as [[[rest| |] wb] tb] eqn:Fb;
      try discriminate.
    injection B as _ <- <-.
    rewrite (IH wa wb w2 rest tb t2 Fb L). now rewrite app_assoc.
Qed.

(** ** The claims on the listing *)

(** C7: [list_users] asks for a page, yields the records of the page
    (there may be none), and only then asks for the next page, at the
    link [next] of the answer and with no parameters; it ends after the
    page whose answer has no link.  With three pages, linked from the
    first to the second and from the second to the third, it makes
    exactly three requests and yields the records of the three pages in
    the order of the pages. *)
Theorem list_users_follows_next_links (k : keys) :
  (forall (fuel : nat) (u : string) (p : option (Z * string)) (w w1 : World)
          (data : list user_json) (next : option string),
     u <> "" ->
     respond w {| req_url := u; req_keys := k; req_params := p |} = (Page data next, w1) ->
     exists (st : result unit) (w2 : World) (t : list event),
       list_users_from respond fuel k next None w1 = (st, w2, t)
       /\ list_users_from respond (S fuel) k (Some u) p w =
            (st, w2,
             (Request {| req_url := u; req_keys := k; req_params := p |}
                :: map Yield data ++ t)%list)
       /\ (next = None -> st = Return tt /\ w2 = w1 /\ t = []))
  /\
  (forall (fuel : nat) (w w1 w2 w3 : World) (d1 d2 d3 : list user_json)
          (u1 u2 : string),
     let r0 := {| req_url := first_url DATADOG_SITE; req_keys := k;
                  req_params := Some (PAGE_SIZE, "Pending") |} in
     let r1 := {| req_url := u1; req_keys := k; req_params := None |} in
     let r2 := {| req_url := u2; req_keys := k; req_params := None |} in
     u1 <> "" -> u2 <> "" ->
     respond w r0 = (Page d1 (Some u1), w1) ->
     respond w1 r1 = (Page d2 (Some u2), w2) ->
     respond w2 r2 = (Page d3 None, w3) ->
     3 <= fuel ->
     exists t : list event,
       list_users DATADOG_SITE respond fuel k w = (Return tt, w3, t)
       /\ t = (Request r0 :: map Yield d1 ++
               Request r1 :: map Yield d2 ++
               Request r2 :: map Yield d3)%list
       /\ yields t = (d1 ++ d2 ++ d3)%list
       /\ requests t = [r0; r1; r2]).
Proof.
  split.
  - intros fuel u p w w1 data next T E.
    rewrite (list_users_from_page fuel k u p w w1 data next T E).
    destruct (list_users_from respond fuel k next None w1) as [[st w2] t] eqn:L.
    exists st, w2, t. split; [reflexivity|]. split; [reflexivity|].
    intros ->. rewrite (list_users_from_stop fuel k None None w1 eq_refl) in L.
    now injection L as <- <- <-.
  - intros fuel w w1 w2 w3 d1 d2 d3 u1 u2 r0 r1 r2 T1 T2 E0 E1 E2 Fuel.
    destruct fuel as [|[|[|fuel]]]; try lia.
    unfold list_users.
    rewrite (list_users_from_page _ k _ _ w w1 d1 (Some u1) first_url_not_empty E0).
    rewrite (list_users_from_page _ k _ _ w1 w2 d2 (Some u2) T1 E1).
    rewrite (list_users_from_page _ k _ _ w2 w3 d3 None T2 E2).
    rewrite (list_users_from_stop fuel k None None w3 eq_refl).
    eexists. split; [reflexivity|]. rewrite !app_nil_r.
    split; [reflexivity|]. split.
    + cbn. rewrite !yields_app. cbn. rewrite !yields_app. cbn.
      now rewrite !yields_Yield.
    + cbn. rewrite !requests_app. cbn. rewrite !requests_app. cbn.
      now rewrite !requests_Yield.
Qed.

(** C6: the reporter does not catch the error of a tenant.  When the
    listing of one tenant raises, after the tenants before it were
    listed, the handler raises: it returns no report, prints nothing, and
    the tenants after it are not asked. *)
Theorem reporter_failure_is_fatal (fuel : nat) (before after : list (string * keys))
    (org : string) (k : keys) (w w1 w2 : World)
    (report : list (string * list pending_user)) (t1 t2 : list event) :
  fetch_all DATADOG_SITE respond fuel before w = (Return report, w1, t1) ->
  list_users DATADOG_SITE respond fuel k w1 = (Raise, w2, t2) ->
  lambda_handler DATADOG_SITE respond fuel (before ++ (org, k) :: after) w =
    (Raise, w2, (t1 ++ t2)%list)
  /\ prints (t1 ++ t2) = [].
Proof.
  intros B L.
  pose proof (fetch_all_raises fuel before after org k w w1 w2 report t1 t2 B L) as F.
  split.
  - unfold lambda_handler. now rewrite F.
  - pose proof (fetch_all_prints fuel (before ++ (org, k) :: after) w) as P.
    now rewrite F in P.
Qed.

End Facts.

(** ** The lines of the report *)

(** C9, as the code has it: a line of the report is the email, filled
    with spaces on its right up to 35 characters (a longer email is kept
    whole), a space, the name or [-] when there is no name or an empty
    one, filled with spaces on its right up to 25 characters, a space,
    then [id:] and the identifier.  The widths count characters, not
    bytes.  This is the line of every user that has an email. *)
Theorem report_line_layout (users : list pending_user) :
  Forall (fun u => email u <> None) users ->
  exists lines : list string,
    print_users users = (Some tt, lines)
    /\ Forall2
         (fun u line =>
            exists e : string,
              email u = Some e
              /\ let n := name_or_dash (name u) in
                 line = (e ++ spaces (35 - len e)) ++ " " ++
                        (n ++ spaces (25 - len n)) ++ " id:" ++ id u
                 /\ len (e ++ spaces (35 - len e)) = Nat.max 35 (len e)
                 /\ len (n ++ spaces (25 - len n)) = Nat.max 25 (len n)
                 /\ n <> ""
                 /\ (forall s, name u = Some s -> s <> "" -> n = s))
         users lines.
Proof.
  induction 1 as [|u users Hu _ (lines & P & F)].
  - exists []. split; [reflexivity | constructor].
  - destruct (email u) as [e|] eqn:Ee; [|congruence].
    cbn [print_users]. unfold format_user at 1. rewrite Ee, P.
    eexists. split; [reflexivity|]. constructor; [|exact F].
    exists e. split; [exact Ee|]. cbn zeta. split; [reflexivity|].
    split; [apply (len_ljust 35)|]. split; [apply (len_ljust 25)|].
    split; [apply name_or_dash_not_empty|].
    intros s -> Ns. cbn. destruct s; [congruence | reflexivity].
Qed.


(** ** The claims at a concrete directory *)

Import Pending_examples.

Lemma list_users_follows_next_links_witness :
  (exists t : list event,
     list_users site (stateless directory) 5 good tt = (Return tt, tt, t)
     /\ yields t = [alice; bob; carol]
     /\ List.map req_url (requests t) = [first_url site; page2; page3])
  /\ list_users_from (stateless directory) 1 good (Some page3) None tt
     = (Return tt, tt,
        [Request {| req_url := page3; req_keys := good; req_params := None |};
         Yield carol]).
Proof.
  pose proof (list_users_follows_next_links site (stateless directory) good)
    as [Step Three].
  split.
  - destruct (Three 5 tt tt tt tt [alice; bob] [] [carol] page2 page3)
      as (t & E & _ & Y & R);
      [discriminate | discriminate | reflexivity | reflexivity | reflexivity | lia |].
    exists t. split; [exact E|]. split; [exact Y|]. now rewrite R.
  - destruct (Step 0 page3 None tt tt [carol] None)
      as (st & w2 & t & _ & E & Stop); [discriminate | reflexivity |].
    destruct (Stop eq_refl) as (-> & -> & ->). exact E.
Defined.

Lemma reporter_failure_is_fatal_witness :
  lambda_handler (H := ascii_str) site (stateless directory) 5
      [("first", good); ("second", bad); ("third", good)] tt
    = (Raise, tt,
       [Request {| req_url := first_url site; req_keys := good;
                   req_params := Some (PAGE_SIZE, "Pending") |};
        Yield alice; Yield bob;
        Request {| req_url := page2; req_keys := good; req_params := None |};
        Request {| req_url := page3; req_keys := good; req_params := None |};
        Yield carol;
        Request {| req_url := first_url site; req_keys := bad;
                   req_params := Some (PAGE_SIZE, "Pending") |};
        LogRequestFailed; LogResponseContent]).
Proof.
  apply (reporter_failure_is_fatal (H := ascii_str) site (stateless directory) 5
           [("first", good)] [("third", good)] "second" bad tt tt tt
           [("first", [pending_alice; pending_carol])]
           [Request {| req_url := first_url site; req_keys := good;
                       req_params := Some (PAGE_SIZE, "Pending") |};
            Yield alice; Yield bob;
            Request {| req_url := page2; req_keys := good; req_params := None |};
            Request {| req_url := page3; req_keys := good; req_params := None |};
            Yield carol]
           [Request {| req_url := first_url site; req_keys := bad;
                       req_params := Some (PAGE_SIZE, "Pending") |};
            LogRequestFailed; LogResponseContent]);
    vm_compute; reflexivity.
Defined.

(** With the three tenants reachable the report is returned. *)
Example report_of_two_tenants :
  fst (fst (lambda_handler (H := ascii_str) site (stateless directory) 5
              [("first", good); ("third", good)] tt))
  = Return {| statusCode := 200;
              body := [("first", [pending_alice; pending_carol]);
                       ("third", [pending_alice; pending_carol])] |}.
Proof. vm_compute. reflexivity. Qed.

(** C9 as stated fails: the line of a user is not the email and the
    name padded on the left; and a user whose name is empty is printed
    with [-] for the name, on either side of the padding. *)
Lemma report_line_is_not_left_padded :
  format_user pending_alice <> Some (spec_line "alice@x.com" "Alice" "1")
  /\ format_user pending_carol <> Some (spec_line "carol@x.com" "" "3")
  /\ format_user pending_carol
     <> Some (ljust 35 "carol@x.com" ++ " " ++ ljust 25 "" ++ " id:" ++ "3").
Proof. repeat split; vm_compute; discriminate. Qed.

Example report_line_alice :
  format_user pending_alice
  = Some "alice@x.com                         Alice                     id:1".
Proof. reflexivity. Qed.

Example report_line_carol :
  format_user pending_carol
  = Some "carol@x.com                         -                         id:3".
Proof. reflexivity. Qed.

Example report_line_taro :
  format_user More_pages.pending_taro
  = Some "taro@x.com                          山田太郎                      id:7"
  /\ len "山田太郎" = 4 /\ String.length "山田太郎" = 12.
Proof. repeat split. Qed.

Lemma report_line_layout_witness :
  print_users [pending_alice; pending_carol; More_pages.pending_taro]
  = (Some tt,
     ["alice@x.com                         Alice                     id:1";
      "carol@x.com                         -                         id:3";
      "taro@x.com                          山田太郎                      id:7"]).
Proof.
  destruct (report_line_layout [pending_alice; pending_carol; More_pages.pending_taro])
    as (lines & P & _).
  - repeat constructor; discriminate.
  - rewrite P. vm_compute in P. now injection P as <-.
Defined.

End Pending_facts.

(** * More on the provisioning handler *)

Module Provisioning_more.
Import Provisioning Provisioning_calls Provisioning_facts.

Section More.
Context `{PyStr}.
Context {World : Type}.
Variable respond : World -> call -> response * World.

(** ** The calls of each function *)

Lemma create_and_invite_user_calls (k : keys) (n e rid : string) (w : World) :
  let run := create_and_invite_user respond k n e rid w in
  (calls (snd run) = [CreateUser k n e rid] /\ exists x, fst (fst run) = Raise x)
  \/ exists uid : string, calls (snd run) = [CreateUser k n e rid; SendInvite k uid].
Proof.
  unfold create_and_invite_user, logging, try_except, bind, request, log, ret, raise.
  destruct (respond w (CreateUser k n e rid)) as [rc w1].
  destruct rc; cbn; try (left; split; [reflexivity | eauto]).
  right. exists user_id0.
  destruct (respond w1 (SendInvite k user_id0)) as [ri w2].
  destruct ri; reflexivity.
Qed.

Lemma delete_user_calls (k : keys) (e : string) (w : World) :
  let run := delete_user respond k e w in
  calls (snd run) = [ListUsers k]
  \/ exists uid : string, calls (snd run) = [ListUsers k; DisableUser k uid].
Proof.
  unfold delete_user, logging, try_except, bind, request, log, ret, raise.
  destruct (respond w (ListUsers k)) as [r w1].
  destruct r; cbn; try (left; reflexivity).
  destruct (List.find (same_email e) users) as [u|]; cbn; [|left; reflexivity].
  right. exists (user_id u).
  destruct (respond w1 (DisableUser k (user_id u))) as [rd w2].
  destruct rd; reflexivity.
Qed.

Lemma resolve_role_calls (k : keys) (o rl : string)
    (d : gmap (string * string) string) (w : World) :
  let run := resolve_role respond k o rl d w in
  (cached d (o, rl) <> "" /\ calls (snd run) = [])
  \/ (cached d (o, rl) = "" /\ calls (snd run) = [ListRoles k]).
Proof.
  destruct (decide (cached d (o, rl) = "")) as [F|T].
  - right. split; [exact F|]. now apply resolve_role_retries.
  - left. split; [exact T|]. now rewrite (resolve_role_hit respond k o rl d w T).
Qed.

Lemma provision_calls (md : mode) (k : keys) (n e : string) (res : option string)
    (d : gmap (string * string) string) (w : World) :
  Forall (fun c => allowed md c = true /\ is_list_roles c = false)
         (calls (snd (provision respond md k n e (res, d) w))).
Proof.
  unfold provision. destruct res as [rid|]; [|constructor].
  destruct md; unfold try_except, bind, log, ret.
  - pose proof (create_and_invite_user_calls k n e rid w) as C.
    destruct (create_and_invite_user respond k n e rid w) as [[[u|x] w1] t1];
      cbn in *; rewrite ?calls_app, ?app_nil_r; cbn; rewrite ?app_nil_r;
      destruct C as [[-> _]|[uid ->]]; repeat constructor.
  - pose proof (delete_user_calls k e w) as C.
    destruct (delete_user respond k e w) as [[[u|x] w1] t1];
      cbn in *; rewrite ?calls_app, ?app_nil_r; cbn; rewrite ?app_nil_r;
      destruct C as [->|[uid ->]]; repeat constructor.
Qed.

(** Every call of a row is one the mode allows. *)
Lemma process_row_calls (md : mode) (org_map : gmap string keys)
    (d : gmap (string * string) string) (r : row) (w : World) :
  Forall (fun c => allowed md c = true)
         (calls (snd (process_row respond md org_map d r w))).
Proof.
  unfold process_row.
  destruct (get_or_empty (row_email r)) as [e0|]; cbn [strip_val];
    [rewrite bind_ret_l | constructor].
  destruct (truthy (strip e0)); cbn [negb]; [|constructor].
  destruct (get_or_empty (row_org r)) as [o0|]; cbn [strip_val];
    [rewrite bind_ret_l | constructor].
  destruct (get_or_empty (row_role r)) as [r0|]; cbn [strip_val];
    [rewrite bind_ret_l | constructor].
  destruct (negb (truthy (strip o0)) || negb (truthy (strip r0))); [constructor|].
  destruct (org_map !! strip o0) as [k|]; [|constructor].
  unfold bind.
  pose proof (resolve_role_calls k (strip o0) (strip r0) d w) as R.
  destruct (resolve_role respond k (strip o0) (strip r0) d w) as [[[[res d1]|x] w1] t1].
  - pose proof (provision_calls md k (name_of r (strip e0)) (strip e0) res d1 w1) as P.
    destruct (provision respond md k _ _ (res, d1) w1) as [[r2 w2] t2].
    cbn in *. rewrite calls_app. apply Forall_app. split.
    + destruct R as [[_ ->]|[_ ->]]; [constructor|]. repeat constructor.
      now destruct md.
    + eapply Forall_impl; [exact P|]. now intros c [A _].
  - cbn in *. destruct R as [[_ ->]|[_ ->]]; [constructor|]. repeat constructor.
    now destruct md.
Qed.

Lemma run_rows_calls (md : mode) (org_map : gmap string keys) (rows : list row) :
  forall (d : gmap (string * string) string) (w : World),
  Forall (fun c => allowed md c = true)
         (calls (snd (run_rows respond md org_map d rows w))).
Proof.
  induction rows as [|r rows IH]; intros d w; cbn [run_rows]; [constructor|].
  unfold bind at 1.
  pose proof (process_row_calls md org_map d r w) as P.
  destruct (process_row respond md org_map d r w) as [[[[o d1]|x] w1] t1]; [|exact P].
  unfold bind, ret. specialize (IH d1 w1).
  destruct (run_rows respond md org_map d1 rows w1) as [[[[os d2]|x] w2] t2];
    cbn in *; rewrite ?calls_app, ?app_nil_r; apply Forall_app; split; assumption.
Qed.

Lemma count_none (p : call -> bool) (t : list event) :
  Forall (fun c => p c = false) (calls t) -> count p t = 0.
Proof.
  unfold count. induction 1 as [|c l Hc _ IH]; [reflexivity|].
  rewrite filter_cons. destruct (decide (p c = true)) as [E|_]; [congruence|exact IH].
Qed.

(** ** What a mode never calls *)

(** X1: the rows of a batch only talk to the user directory.  In Create
    mode no user listing and no disable call is ever issued, in Delete
    mode no create and no invite call; in both modes the rows never
    touch the secret or the S3 object.  This holds for any rows and any
    answers, also when the loop is left by an exception. *)
Theorem rows_call_only_their_mode (md : mode) (org_map : gmap string keys)
    (rows : list row) (d : gmap (string * string) string) (w : World) :
  let t := snd (run_rows respond md org_map d rows w) in
  count is_get_secret t = 0
  /\ count is_get_object t = 0
  /\ count is_delete_object t = 0
  /\ match md with
     | Create => count is_list_users t = 0 /\ count is_disable t = 0
     | Delete => count is_create t = 0 /\ count is_invite t = 0
     end.
Proof.
  pose proof (run_rows_calls md org_map rows d w) as A. cbn zeta.
  assert (G : forall p : call -> bool,
             (forall c, allowed md c = true -> p c = false) ->
             count p (snd (run_rows respond md org_map d rows w)) = 0).
  { intros p Hp. apply count_none. eapply Forall_impl; [exact A|]. exact Hp. }
  repeat split.
  - apply G. now intros [] ?; destruct md.
  - apply G. now intros [] ?; destruct md.
  - apply G. now intros [] ?; destruct md.
  - destruct md; split; apply G; now intros [] ?.
Qed.

(** ** Rows that are rejected *)

Lemma provision_outcome (md : mode) (k : keys) (n e : string) (res : option string)
    (d d' : gmap (string * string) string) (w w' : World) (o : outcome)
    (t : list event) :
  provision respond md k n e (res, d) w = (Return (o, d'), w', t) ->
  o <> ValidationError /\ o <> UnknownTenant
  /\ (res <> None -> calls t <> []).
Proof.
  unfold provision, try_except, bind, log, ret.
  destruct res as [rid|]; [destruct md|].
  - pose proof (create_and_invite_user_calls k n e rid w) as C.
    destruct (create_and_invite_user respond k n e rid w) as [[[u|x] w1] t1];
      cbn in C; intros [= <- <- <- <-]; (split; [discriminate|]);
      (split; [discriminate|]); intros _; rewrite ?calls_app;
      destruct C as [[-> _]|[uid ->]]; discriminate.
  - pose proof (delete_user_calls k e w) as C.
    destruct (delete_user respond k e w) as [[[u|x] w1] t1];
      cbn in C; intros [= <- <- <- <-]; (split; [discriminate|]);
      (split; [discriminate|]); intros _; rewrite ?calls_app;
      destruct C as [->|[uid ->]]; discriminate.
  - intros [= <- <- <- <-]. repeat split; congruence.
Qed.

Lemma process_row_no_call (md : mode) (org_map : gmap string keys)
    (d d' : gmap (string * string) string) (r : row) (w w' : World)
    (o : outcome) (t : list event) :
  process_row respond md org_map d r w = (Return (o, d'), w', t) ->
  (calls t = [] <-> o = ValidationError \/ o = UnknownTenant)
  /\ (calls t = [] -> d' = d /\ w' = w).
Proof.
  unfold process_row.
  destruct (get_or_empty (row_email r)) as [e0|]; cbn [strip_val];
    [rewrite bind_ret_l | discriminate].
  destruct (truthy (strip e0)); cbn [negb];
    [|intros [= <- <- <- <-]; split; [split; auto|auto]].
  destruct (get_or_empty (row_org r)) as [o0|]; cbn [strip_val];
    [rewrite bind_ret_l | discriminate].
  destruct (get_or_empty (row_role r)) as [r0|]; cbn [strip_val];
    [rewrite bind_ret_l | discriminate].
  destruct (negb (truthy (strip o0)) || negb (truthy (strip r0)));
    [intros [= <- <- <- <-]; split; [split; auto|auto]|].
  destruct (org_map !! strip o0) as [k|];
    [|intros [= <- <- <- <-]; split; [split; auto|auto]].
  intros E. apply bind_inv in E as ([res d1] & w1 & t1 & t2 & E1 & E2 & ->).
  apply provision_outcome in E2 as (NV & NU & Called).
  pose proof (resolve_role_calls k (strip o0) (strip r0) d w) as R.
  rewrite E1 in R. cbn in R.
  assert (Some_call : calls (t1 ++ t2) <> []).
  { rewrite calls_app. destruct R as [[T Nil]|[_ ->]]; [|discriminate].
    rewrite (resolve_role_hit respond k _ _ d w T) in E1.
    injection E1 as <- _ _ _. rewrite Nil. cbn. apply Called. discriminate. }
  split; [split|].
  - intros Nil. contradiction.
  - intros [->| ->]; contradiction.
  - intros Nil. contradiction.
Qed.

(** X2: a row is rejected (missing field or unknown org) exactly when it
    issues no call at all; a rejected row leaves the role cache and the
    world as they were.  Every other row that returns has made at least
    one call. *)
Theorem rejected_iff_no_call (md : mode) (org_map : gmap string keys)
    (d d' : gmap (string * string) string) (r : row) (w w' : World)
    (o : outcome) (t : list event) :
  process_row respond md org_map d r w = (Return (o, d'), w', t) ->
  (calls t = [] <-> o = ValidationError \/ o = UnknownTenant)
  /\ (calls t = [] -> d' = d /\ w' = w).
Proof. apply process_row_no_call. Qed.

(** X3: a row with a non-empty email and role whose org is not in the
    secret is rejected as an unknown tenant in either mode: nothing is
    called, not even the role listing, and the cache is not touched. *)
Theorem unknown_org_is_skipped (md : mode) (org_map : gmap string keys)
    (d : gmap (string * string) string) (r : row) (w : World) (e0 o0 r0 : string) :
  get_or_empty (row_email r) = Some e0 ->
  get_or_empty (row_org r) = Some o0 ->
  get_or_empty (row_role r) = Some r0 ->
  strip e0 <> "" -> strip o0 <> "" -> strip r0 <> "" ->
  org_map !! strip o0 = None ->
  process_row respond md org_map d r w =
    (Return (UnknownTenant, d), w, [Log (Err_UnknownOrg (strip o0))]).
Proof.
  intros Ee Eo Er Te To Tr Ek. apply truthy_true in Te, To, Tr.
  unfold process_row. rewrite Ee. cbn [strip_val]. rewrite bind_ret_l, Te. cbn [negb].
  rewrite Eo. cbn [strip_val]. rewrite bind_ret_l.
  rewrite Er. cbn [strip_val]. rewrite bind_ret_l, To, Tr. cbn [negb orb].
  now rewrite Ek.
Qed.

(** X4: the email is checked first.  A row whose email column is not
    in the file, or whose email cell is empty or blank, is rejected
    whatever is under the other columns, also when the row is short and
    they hold [None]: this row does not raise, and the loop goes on with
    the rows after it.  A row whose email itself is [None] is not
    rejected: [None.strip()] raises [AttributeError] before any log
    statement, and the loop is left. *)
Theorem blank_email_is_rejected_first (md : mode) (org_map : gmap string keys)
    (d : gmap (string * string) string) (r : row) (rows : list row) (w : World) :
  (forall e0 : string,
     get_or_empty (row_email r) = Some e0 ->
     strip e0 = "" ->
     process_row respond md org_map d r w =
       (Return (ValidationError, d), w, [Log (Err_MissingEmail r)])
     /\ run_rows respond md org_map d (r :: rows) w =
          let '(res, w', t) := run_rows respond md org_map d rows w in
          (match res with
           | Return (os, d') => Return (ValidationError :: os, d')
           | Raise x => Raise x
           end, w', Log (Err_MissingEmail r) :: t))
  /\
  (row_email r = Null ->
     process_row respond md org_map d r w = (Raise AttributeError, w, [])
     /\ run_rows respond md org_map d (r :: rows) w = (Raise AttributeError, w, [])).
Proof.
  split.
  - intros e0 Ee Te. apply truthy_false in Te.
    assert (P : process_row respond md org_map d r w =
                  (Return (ValidationError, d), w, [Log (Err_MissingEmail r)])).
    { unfold process_row. rewrite Ee. cbn [strip_val]. now rewrite bind_ret_l, Te. }
    split; [exact P|]. cbn [run_rows]. unfold bind at 1. rewrite P.
    unfold bind, ret.
    destruct (run_rows respond md org_map d rows w) as [[[[os d']|x] w'] t];
      cbn; now rewrite ?app_nil_r.
  - intros N.
    assert (P : process_row respond md org_map d r w = (Raise AttributeError, w, [])).
    { unfold process_row. rewrite N. reflexivity. }
    split; [exact P|]. cbn [run_rows]. unfold bind at 1. now rewrite P.
Qed.

(** ** Rows one after the other *)

Lemma run_rows_app (md : mode) (org_map : gmap string keys) (rows1 rows2 : list row) :
  forall (d : gmap (string * string) string) (w : World),
  run_rows respond md org_map d (rows1 ++ rows2) w =
    let '(r1, w1, t1) := run_rows respond md org_map d rows1 w in
    match r1 with
    | Return (os1, d1) =>
        let '(r2, w2, t2) := run_rows respond md org_map d1 rows2 w1 in
        (match r2 with
         | Return (os2, d2) => Return ((os1 ++ os2)%list, d2)
         | Raise x => Raise x
         end, w2, (t1 ++ t2)%list)
    | Raise x => (Raise x, w1, t1)
    end.
Proof.
  induction rows1 as [|r rows1 IH]; intros d w; cbn [app run_rows].
  - unfold ret.
    destruct (run_rows respond md org_map d rows2 w) as [[[[os2 d2]|x] w2] t2];
      reflexivity.
  - unfold bind at 1 3.
    destruct (process_row respond md org_map d r w) as [[[[o d1]|x] w1] t1];
      [|reflexivity].
    unfold bind at 1 2. rewrite IH.
    destruct (run_rows respond md org_map d1 rows1 w1) as [[[[os1 d2]|x] w2] t2];
      [|reflexivity].
    unfold ret.
    destruct (run_rows respond md org_map d2 rows2 w2) as [[[[os2 d3]|x] w3] t3];
      cbn; now rewrite ?app_nil_r, ?app_assoc.
Qed.

(** X5: batch isolation.  A rejected row in the middle of a batch adds
    its own outcome and its own log line and nothing else: the rows after
    it start from the same role cache and the same world as without it,
    so they issue the same calls and end the same way. *)
Theorem rejected_row_is_transparent (md : mode) (org_map : gmap string keys)
    (rows1 rows2 : list row) (bad : row)
    (d d1 db : gmap (string * string) string) (w w1 wb : World)
    (os1 : list outcome) (ob : outcome) (t1 tb : list event) :
  run_rows respond md org_map d rows1 w = (Return (os1, d1), w1, t1) ->
  process_row respond md org_map d1 bad w1 = (Return (ob, db), wb, tb) ->
  ob = ValidationError \/ ob = UnknownTenant ->
  run_rows respond md org_map d (rows1 ++ bad :: rows2) w =
    (let '(r2, w2, t2) := run_rows respond md org_map d1 rows2 w1 in
     (match r2 with
      | Return (os2, d2) => Return ((os1 ++ ob :: os2)%list, d2)
      | Raise x => Raise x
      end, w2, (t1 ++ tb ++ t2)%list))
  /\ run_rows respond md org_map d (rows1 ++ rows2) w =
    (let '(r2, w2, t2) := run_rows respond md org_map d1 rows2 w1 in
     (match r2 with
      | Return (os2, d2) => Return ((os1 ++ os2)%list, d2)
      | Raise x => Raise x
      end, w2, (t1 ++ t2)%list))
  /\ calls tb = [].
Proof.
  intros R1 B Rej.
  destruct (process_row_no_call md org_map d1 db bad w1 wb ob tb B) as [Iff Same].
  pose proof (proj2 Iff Rej) as Nil. destruct (Same Nil) as [-> ->].
  split; [|split; [|exact Nil]].
  - rewrite run_rows_app, R1. cbn [run_rows]. unfold bind at 1. rewrite B.
    unfold bind, ret.
    destruct (run_rows respond md org_map d1 rows2 w1) as [[[[os2 d2]|x] w2] t2];
      cbn; now rewrite ?app_nil_r.
  - rewrite run_rows_app, R1.
    destruct (run_rows respond md org_map d1 rows2 w1) as [[[[os2 d2]|x] w2] t2];
      reflexivity.
Qed.

(** ** How many calls a batch makes *)

Lemma process_row_budget (md : mode) (org_map : gmap string keys)
    (d : gmap (string * string) string) (r : row) (w : World) :
  let t := snd (process_row respond md org_map d r w) in
  count is_list_roles t <= 1
  /\ count is_create t <= 1
  /\ count is_invite t <= count is_create t
  /\ count is_list_users t <= 1
  /\ count is_disable t <= count is_list_users t.
Proof.
  unfold process_row.
  destruct (get_or_empty (row_email r)) as [e0|]; cbn [strip_val];
    [rewrite bind_ret_l | vm_compute; lia].
  destruct (truthy (strip e0)); cbn [negb]; [|vm_compute; lia].
  destruct (get_or_empty (row_org r)) as [o0|]; cbn [strip_val];
    [rewrite bind_ret_l | vm_compute; lia].
  destruct (get_or_empty (row_role r)) as [r0|]; cbn [strip_val];
    [rewrite bind_ret_l | vm_compute; lia].
  destruct (negb (truthy (strip o0)) || negb (truthy (strip r0)));
    [vm_compute; lia|].
  destruct (org_map !! strip o0) as [k|]; [|vm_compute; lia].
  unfold bind.
  pose proof (resolve_role_calls k (strip o0) (strip r0) d w) as R.
  destruct (resolve_role respond k (strip o0) (strip r0) d w) as [[[[res d1]|x] w1] t1].
  - assert (P : exists l, calls (snd (provision respond md k (name_of r (strip e0))
                                          (strip e0) (res, d1) w1)) = l
                /\ (l = [] \/ (exists a b c e, l = [CreateUser a b c e])
                    \/ (exists a b c e f g, l = [CreateUser a b c e; SendInvite f g])
                    \/ (exists a, l = [ListUsers a])
                    \/ (exists a b c, l = [ListUsers a; DisableUser b c]))).
    { eexists. split; [reflexivity|]. unfold provision.
      destruct res as [rid|]; [|left; reflexivity].
      destruct md; unfold try_except, bind, log, ret.
      - pose proof (create_and_invite_user_calls k (name_of r (strip e0)) (strip e0)
                      rid w1) as C.
        destruct (create_and_invite_user respond k _ _ rid w1) as [[[u|x] w2] t2];
          cbn in *; rewrite ?calls_app, ?app_nil_r; cbn; rewrite ?app_nil_r;
          destruct C as [[-> _]|[uid ->]]; eauto 12.
      - pose proof (delete_user_calls k (strip e0) w1) as C.
        destruct (delete_user respond k (strip e0) w1) as [[[u|x] w2] t2];
          cbn in *; rewrite ?calls_app, ?app_nil_r; cbn; rewrite ?app_nil_r;
          destruct C as [->|[uid ->]]; eauto 12. }
    destruct P as (l & El & Shape).
    destruct (provision respond md k _ _ (res, d1) w1) as [[r2 w2] t2].
    cbn in *. unfold count. rewrite calls_app, El.
    destruct R as [[_ ->]|[_ ->]];
      destruct Shape as [->|[(?&?&?&?&->)|[(?&?&?&?&?&?&->)|[(?&->)|(?&?&?&->)]]]];
      vm_compute; lia.
  - cbn in *. unfold count.
    destruct R as [[_ ->]|[_ ->]]; vm_compute; lia.
Qed.

(** X6: the cost of a batch is bounded by its rows.  Whatever the rows
    and the answers, a run over [n] rows lists the roles at most [n]
    times, creates at most [n] users and lists the users at most [n]
    times; it never sends more invitations than it created users, and
    never disables more users than it made user listings. *)
Theorem batch_call_budget (md : mode) (org_map : gmap string keys) (rows : list row) :
  forall (d : gmap (string * string) string) (w : World),
  let t := snd (run_rows respond md org_map d rows w) in
  count is_list_roles t <= length rows
  /\ count is_create t <= length rows
  /\ count is_invite t <= count is_create t
  /\ count is_list_users t <= length rows
  /\ count is_disable t <= count is_list_users t.
Proof.
  induction rows as [|r rows IH]; intros d w; cbn [run_rows length].
  - vm_compute. lia.
  - unfold bind, ret.
    pose proof (process_row_budget md org_map d r w) as P.
    destruct (process_row respond md org_map d r w) as [[[[o d1]|x] w1] t1];
      [|cbn -[count] in *; lia].
    specialize (IH d1 w1).
    destruct (run_rows respond md org_map d1 rows w1) as [[[[os d2]|x] w2] t2];
      cbn -[count] in *; rewrite ?app_nil_r, !count_app; lia.
Qed.

(** ** The batch source *)

Lemma process_record_calls (org_map : gmap string keys)
    (d : gmap (string * string) string) (rec : s3_record) (w : World) :
  Forall (fun c => is_get_secret c = false)
         (calls (snd (process_record respond org_map d rec w))).
Proof.
  unfold process_record. destruct (mode_of (unquote_plus (rec_key rec))) as [md|];
    [|constructor].
  unfold bind at 1, request.
  destruct (respond w (GetObject _ _)) as [body w1].
  destruct body; cbn; try (repeat constructor).
  unfold bind at 1.
  pose proof (run_rows_calls md org_map rows d w1) as R.
  destruct (run_rows respond md org_map d rows w1) as [[[[os d1]|x] w2] t1]; cbn in *.
  all: assert (RA : Forall (fun c => is_get_secret c = false) (calls t1))
    by (eapply Forall_impl; [exact R|]; now intros [] ?; destruct md).
  - unfold bind, try_except, request, ret, raise, log.
    destruct (respond w2 (DeleteObject _ _)) as [rd w3].
    destruct rd; cbn; rewrite ?calls_app; cbn;
      repeat first [ exact RA | apply Forall_app_2 | constructor ].
  - constructor; [reflexivity | exact RA].
Qed.

Lemma run_records_calls (org_map : gmap string keys) (records : list s3_record) :
  forall (d : gmap (string * string) string) (w : World),
  Forall (fun c => is_get_secret c = false)
         (calls (snd (run_records respond org_map d records w))).
Proof.
  induction records as [|rec records IH]; intros d w; cbn [run_records]; [constructor|].
  unfold bind, ret.
  pose proof (process_record_calls org_map d rec w) as P.
  destruct (process_record respond org_map d rec w) as [[[[os d1]|x] w1] t1]; [|exact P].
  specialize (IH d1 w1).
  destruct (run_records respond org_map d1 records w1) as [[[oss|x] w2] t2];
    cbn in *; rewrite ?calls_app, ?app_nil_r; apply Forall_app; split; assumption.
Qed.

(** X7: the secret is read at most once for an invocation, before
    anything else.  Without records nothing is called at all; with
    records the first call is the one to the secret store, no later call
    reads it again, and when it fails nothing else is called and the
    error leaves the handler. *)
Theorem secret_is_read_once (records : list s3_record) (w : World) :
  (records = [] -> lambda_handler respond records w = (Return [], w, []))
  /\ (records <> [] ->
      exists t' : list event,
        snd (lambda_handler respond records w) = Call GetSecretValue :: t'
        /\ count is_get_secret t' = 0
        /\ ((forall org_map, fst (respond w GetSecretValue) <> Secret org_map) ->
            lambda_handler respond records w =
              (Raise (CallError GetSecretValue), snd (respond w GetSecretValue),
               [Call GetSecretValue]))).
Proof.
  split; [now intros ->|].
  intros NE. destruct records as [|rec records]; [congruence|].
  unfold lambda_handler, bind, request.
  destruct (respond w GetSecretValue) as [r w1]. cbn [fst snd].
  destruct r; cbn -[run_records];
    try (eexists; split; [reflexivity|]; split; [reflexivity|];
         intros _; reflexivity).
  pose proof (run_records_calls orgs (rec :: records) ∅ w1) as R.
  destruct (run_records respond orgs ∅ (rec :: records) w1) as [[res w2] t2].
  cbn in *. eexists. split; [reflexivity|]. split.
  - apply count_none. exact R.
  - intros N. now destruct (N orgs).
Qed.


(** X9: failing to read the batch source is not a row failure and is
    not caught: the exception of [get_object] leaves the loop over the
    records, the source is not deleted and the records after it are not
    read. *)
Theorem unreadable_source_stops_the_handler (org_map : gmap string keys)
    (d : gmap (string * string) string) (rec : s3_record)
    (records : list s3_record) (w w1 : World) (md : mode) :
  let bucket := rec_bucket rec in
  let key := unquote_plus (rec_key rec) in
  mode_of key = Some md ->
  respond w (GetObject bucket key) = (Raises, w1) ->
  run_records respond org_map d (rec :: records) w =
    (Raise (CallError (GetObject bucket key)), w1, [Call (GetObject bucket key)]).
Proof.
  intros bucket key M G. cbn [run_records]. unfold bind at 1.
  unfold process_record. fold key bucket. rewrite M.
  unfold bind at 1. now rewrite (request_answer respond _ _ _ _ G).
Qed.

(** X10: the role cache is shared by the files of one invocation.  An
    identifier held when a record is started is still held when the
    record is done, so a row of a later file with the same org and role
    is resolved with no call. *)
Theorem role_cache_survives_a_file (org_map : gmap string keys)
    (d d' : gmap (string * string) string) (rec : s3_record) (w w' : World)
    (os : list outcome) (t : list event) (o rl id0 : string) :
  process_record respond org_map d rec w = (Return (os, d'), w', t) ->
  cached d (o, rl) = id0 -> id0 <> "" ->
  cached d' (o, rl) = id0
  /\ forall (k : keys) (w2 : World),
       resolve_role respond k o rl d' w2 = (Return (Some id0, d'), w2, []).
Proof.
  intros P <- T.
  assert (K : cached d' (o, rl) = cached d (o, rl)).
  { revert P. unfold process_record.
    destruct (mode_of (unquote_plus (rec_key rec))) as [md|];
      [|now intros [= _ <- _ _]].
    intros P. apply bind_inv in P as (body & w1 & t1 & t2 & _ & P & _).
    destruct body; try discriminate.
    apply bind_inv in P as ([os1 d1] & w2 & t3 & t4 & R & P & _).
    apply bind_inv in P as (u & w3 & t5 & t6 & _ & P & _).
    injection P as _ <- _ _.
    exact (run_rows_keeps respond _ _ _ _ _ _ _ _ _ R (o, rl) T). }
  split; [exact K|]. intros k w2. rewrite <- K. apply resolve_role_hit.
  now rewrite K.
Qed.

(** ** The role listing *)

Lemma find_some_split {A} (p : A -> bool) (l : list A) (x : A) :
  List.find p l = Some x ->
  exists pre post, l = (pre ++ x :: post)%list
                   /\ Forall (fun y => p y = false) pre /\ p x = true.
Proof.
  induction l as [|y l IH]; cbn; [discriminate|].
  destruct (p y) eqn:Py.
  - intros [= ->]. exists [], l. repeat split; [constructor | exact Py].
  - intros F. destruct (IH F) as (pre & post & -> & Pre & Px).
    exists (y :: pre), post. repeat split; [constructor; assumption | exact Px].
Qed.

(** X11: [_get_role_id] returns an identifier exactly when the listing
    answers with a status below 300 and a role whose name equals the
    role name in lower case; it is then the identifier of the first such
    role.  A status of 300 or more is an error whatever the body lists,
    and a listing without the role is an error; in every case exactly one
    listing call is made. *)
Theorem get_role_id_result (k : keys) (rl : string) (w : World) :
  (forall (id0 : string) (w1 : World) (t : list event),
     _get_role_id respond k rl w = (Return id0, w1, t) <->
     exists (st : Z) (pre post : list role_json) (r : role_json),
       respond w (ListRoles k) = (Roles st (pre ++ r :: post), w1)
       /\ (st < 300)%Z
       /\ Forall (fun r' => lower (role_name r') <> lower rl) pre
       /\ lower (role_name r) = lower rl
       /\ role_id r = id0
       /\ t = [Call (ListRoles k)])
  /\ (forall (st : Z) (roles : list role_json) (w1 : World),
        respond w (ListRoles k) = (Roles st roles, w1) ->
        (300 <= st)%Z ->
        _get_role_id respond k rl w =
          (Raise (RuntimeError st), w1, [Call (ListRoles k)]))
  /\ (forall (st : Z) (roles : list role_json) (w1 : World),
        respond w (ListRoles k) = (Roles st roles, w1) ->
        (st < 300)%Z ->
        Forall (fun r' => lower (role_name r') <> lower rl) roles ->
        _get_role_id respond k rl w =
          (Raise (KeyError rl), w1, [Call (ListRoles k)])).
Proof.
  split; [|split].
  - intros id0 w1 t. split.
    + unfold _get_role_id, bind, request, ret, raise.
      destruct (respond w (ListRoles k)) as [r w0].
      destruct r; cbn; try discriminate.
      destruct (Z.leb_spec 300 status) as [?|Lt]; [discriminate|].
      destruct (List.find (same_role rl) roles) as [r|] eqn:F; [|discriminate].
      intros [= <- <- <-].
      destruct (find_some_split _ _ _ F) as (pre & post & -> & Pre & Hit).
      exists status, pre, post, r. repeat split; try assumption.
      * eapply Forall_impl; [exact Pre|]. intros r' N. unfold same_role in N.
        now apply String.eqb_neq in N.
      * unfold same_role in Hit. now apply String.eqb_eq in Hit.
    + intros (st & pre & post & r & E & St & Pre & Hit & <- & ->).
      exact (_get_role_id_found respond k rl w w1 st pre r post E St Pre Hit).
  - intros st roles w1 E St. unfold _get_role_id, bind.
    rewrite (request_answer respond _ _ _ _ E). cbn.
    destruct (Z.leb_spec 300 st) as [_|?]; [reflexivity | lia].
  - intros st roles w1 E St None_. unfold _get_role_id, bind.
    rewrite (request_answer respond _ _ _ _ E). cbn.
    destruct (Z.leb_spec 300 st) as [?|_]; [lia|].
    rewrite (find_no_match (same_role rl) roles); [reflexivity|].
    eapply Forall_impl; [exact None_|]. intros r' N. unfold same_role.
    now apply String.eqb_neq.
Qed.

(** ** The name sent with a create call *)

(** X12: the create call of a valid Create row carries the stripped
    email and a display name that is never empty: the stripped name of
    the row, and the email when the name column is missing, [None] or
    blank. *)
Theorem create_call_name (org_map : gmap string keys)
    (d d1 : gmap (string * string) string) (r : row) (w w1 : World)
    (e0 o0 r0 : string) (k : keys) (rid : string) (t1 : list event) :
  strip "" = "" ->
  get_or_empty (row_email r) = Some e0 ->
  get_or_empty (row_org r) = Some o0 ->
  get_or_empty (row_role r) = Some r0 ->
  strip e0 <> "" -> strip o0 <> "" -> strip r0 <> "" ->
  org_map !! strip o0 = Some k ->
  resolve_role respond k (strip o0) (strip r0) d w = (Return (Some rid, d1), w1, t1) ->
  exists (n : string) (t2 : list event),
    snd (process_row respond Create org_map d r w)
      = (t1 ++ Call (CreateUser k n (strip e0) rid) :: t2)%list
    /\ n <> ""
    /\ match row_name r with
       | Str s => if truthy (strip s) then n = strip s else n = strip e0
       | _ => n = strip e0
       end.
Proof.
  intros S0 Ee Eo Er Te To Tr Ek Res.
  rewrite (process_row_valid respond Create org_map d r w e0 o0 r0 k Ee Eo Er Te To Tr Ek).
  unfold bind at 1. rewrite Res.
  exists (name_of r (strip e0)).
  assert (Tr_ : exists t2, snd (provision respond Create k (name_of r (strip e0))
                                  (strip e0) (Some rid, d1) w1)
                           = Call (CreateUser k (name_of r (strip e0)) (strip e0) rid) :: t2).
  { unfold provision, try_except, bind, create_and_invite_user, logging, try_except,
      bind, request, log, ret, raise.
    destruct (respond w1 (CreateUser _ _ _ _)) as [rc w2].
    destruct rc; cbn; eauto.
    destruct (respond w2 (SendInvite k user_id0)) as [ri w3].
    destruct ri; cbn; eauto. }
  destruct Tr_ as (t2 & E2). exists t2.
  destruct (provision respond Create k _ _ (Some rid, d1) w1) as [[r2 w2] t].
  cbn in E2. subst t. split; [reflexivity|].
  unfold name_of, get, or_empty.
  destruct (row_name r) as [| |s]; rewrite ?S0; cbn [truthy]; try (split; [assumption|reflexivity]).
  destruct (truthy s) eqn:Ts.
  - destruct (truthy (strip s)) eqn:Tn; split; try reflexivity; try assumption.
    now apply truthy_true.
  - apply truthy_false in Ts. subst s. rewrite S0. cbn. split; [assumption|reflexivity].
Qed.

End More.

(** ** The suffix of the key *)

Lemma length_string_app (a b : string) :
  String.length (a ++ b) = String.length a + String.length b.
Proof. induction a as [|c a IH]; simpl; [reflexivity | now rewrite IH]. Qed.

Lemma substring_all (s : string) : String.substring 0 (String.length s) s = s.
Proof. induction s as [|c s IH]; simpl; [reflexivity | now rewrite IH]. Qed.

Lemma substring_skip (p s : string) (m : nat) :
  String.substring (String.length p) m (p ++ s) = String.substring 0 m s.
Proof. induction p as [|c p IH]; simpl; [reflexivity | exact IH]. Qed.

Lemma substring_split (s : string) :
  forall k : nat, k <= String.length s ->
  s = String.substring 0 k s ++ String.substring k (String.length s - k) s.
Proof.
  induction s as [|c s IH]; intros k Hk; simpl in *.
  - destruct k; [reflexivity | lia].
  - destruct k as [|k]; simpl.
    + now rewrite substring_all.
    + change (String c s
              = String c (String.substring 0 k s
                          ++ String.substring k (String.length s - k) s)).
      f_equal. apply IH. lia.
Qed.

Lemma endswith_iff (s suffix : string) :
  endswith s suffix = true <-> exists p : string, s = p ++ suffix.
Proof.
  unfold endswith. split.
  - destruct (Nat.leb_spec (String.length suffix) (String.length s)) as [Le|];
      [|discriminate].
    intros E. apply String.eqb_eq in E.
    exists (String.substring 0 (String.length s - String.length suffix) s).
    rewrite (substring_split s (String.length s - String.length suffix)) at 1 by lia.
    f_equal.
    replace (String.length s - (String.length s - String.length suffix))
      with (String.length suffix) by lia.
    exact E.
  - intros [p ->]. rewrite length_string_app.
    destruct (Nat.leb_spec (String.length suffix) (String.length p + String.length suffix))
      as [_|]; [|lia].
    replace (String.length p + String.length suffix - String.length suffix)
      with (String.length p) by lia.
    rewrite substring_skip, substring_all. apply String.eqb_refl.
Qed.

(** X13: the mode of a batch source is Create exactly when its key is
    any text followed by [create_user.csv], Delete exactly when it is any
    text followed by [delete_user.csv], and the source is skipped in
    every other case; the comparison is on the characters as they are,
    so the directory of the key and what precedes the suffix in the file
    name do not matter. *)
Theorem mode_of_suffix (key : string) :
  (mode_of key = Some Create <-> exists p : string, key = p ++ "create_user.csv")
  /\ (mode_of key = Some Delete <-> exists p : string, key = p ++ "delete_user.csv")
  /\ (mode_of key = None <->
      (forall p : string, key <> p ++ "create_user.csv")
      /\ (forall p : string, key <> p ++ "delete_user.csv")).
Proof.
  pose proof (endswith_iff key "create_user.csv") as C.
  pose proof (endswith_iff key "delete_user.csv") as D.
  unfold mode_of.
  destruct (endswith key "create_user.csv") eqn:Ec;
    destruct (endswith key "delete_user.csv") eqn:Ed.
  - exfalso.
    now discriminate
      (endswith_same_length key "create_user.csv" "delete_user.csv" eq_refl Ec Ed).
  - split; [|split].
    + split; [intros _; now apply C | reflexivity].
    + split; [discriminate|]. intros P. apply D in P. discriminate.
    + split; [discriminate|]. intros [N _]. destruct (proj1 C eq_refl) as [p ->].
      now destruct (N p).
  - split; [|split].
    + split; [discriminate|]. intros P. apply C in P. discriminate.
    + split; [intros _; now apply D | reflexivity].
    + split; [discriminate|]. intros [_ N]. destruct (proj1 D eq_refl) as [p ->].
      now destruct (N p).
  - split; [|split].
    + split; [discriminate|]. intros P. apply C in P. discriminate.
    + split; [discriminate|]. intros P. apply D in P. discriminate.
    + split; [|reflexivity]. intros _. split; intros p ->.
      * assert (X : false = true) by (apply C; eauto). discriminate.
      * assert (X : false = true) by (apply D; eauto). discriminate.
Qed.


(** ** The properties at concrete rows *)

Import Provisioning_examples More_examples.

Lemma rejected_iff_no_call_witness :
  (calls [Log (Err_UnknownOrg "globex")] = []
   <-> UnknownTenant = ValidationError \/ UnknownTenant = UnknownTenant)
  /\ (calls [Log (Err_UnknownOrg "globex")] = [] -> (∅ : gmap (string * string) string) = ∅ /\ tt = tt).
Proof.
  apply (rejected_iff_no_call (H := ascii_str) (stateless (healthy [])) Create org_map1
           ∅ ∅ row_unknown_org tt tt UnknownTenant [Log (Err_UnknownOrg "globex")]).
  vm_compute. reflexivity.
Defined.

Lemma unknown_org_is_skipped_witness :
  process_row (H := ascii_str) (stateless (healthy [])) Delete org_map1 ∅
      row_unknown_org tt
    = (Return (UnknownTenant, ∅), tt, [Log (Err_UnknownOrg "globex")]).
Proof.
  apply (unknown_org_is_skipped (H := ascii_str) (stateless (healthy [])) Delete org_map1
           ∅ row_unknown_org tt "z@x.com" "globex" "Admin");
    first [reflexivity | vm_compute; discriminate].
Defined.

Lemma blank_email_is_rejected_first_witness :
  process_row (H := ascii_str) (stateless (healthy [])) Create org_map1 ∅
      {| row_email := Str "  "; row_name := Null; row_org := Null; row_role := Null |} tt
    = (Return (ValidationError, ∅), tt,
       [Log (Err_MissingEmail
               {| row_email := Str "  "; row_name := Null;
                  row_org := Null; row_role := Null |})])
  /\ process_row (H := ascii_str) (stateless (healthy [])) Create org_map1 ∅
       {| row_email := Absent; row_name := Str "Bob"; row_org := Null; row_role := Null |} tt
     = (Return (ValidationError, ∅), tt,
        [Log (Err_MissingEmail
                {| row_email := Absent; row_name := Str "Bob";
                   row_org := Null; row_role := Null |})])
  /\ run_rows (H := ascii_str) (stateless (healthy [])) Create org_map1 ∅
       [{| row_email := Null; row_name := Str "Bob"; row_org := Null; row_role := Null |};
        row_create] tt
     = (Raise AttributeError, tt, []).
Proof.
  split; [|split].
  - apply (proj1 (proj1 (blank_email_is_rejected_first (H := ascii_str)
                           (stateless (healthy []))
                           Create org_map1 ∅
                           {| row_email := Str "  "; row_name := Null;
                              row_org := Null; row_role := Null |}
                           [] tt) "  " eq_refl eq_refl)).
  - apply (proj1 (proj1 (blank_email_is_rejected_first (H := ascii_str)
                           (stateless (healthy []))
                           Create org_map1 ∅
                           {| row_email := Absent; row_name := Str "Bob";
                              row_org := Null; row_role := Null |}
                           [] tt) "" eq_refl eq_refl)).
  - apply (proj2 (proj2 (blank_email_is_rejected_first (H := ascii_str)
                           (stateless (healthy []))
                           Create org_map1 ∅
                           {| row_email := Null; row_name := Str "Bob";
                              row_org := Null; row_role := Null |}
                           [row_create] tt) eq_refl)).
Defined.

Lemma rejected_row_is_transparent_witness :
  snd (run_rows (H := ascii_str) (stateless (healthy [])) Create org_map1 ∅
         [row_create; row_unknown_org; row_named] tt)
  = (snd (run_rows (H := ascii_str) (stateless (healthy [])) Create org_map1 ∅
            [row_create] tt)
     ++ [Log (Err_UnknownOrg "globex")]
     ++ snd (run_rows (H := ascii_str) (stateless (healthy [])) Create org_map1
               (<[("acme", "Admin") := "42"]> (<[("acme", "Admin") := ""]> ∅))
               [row_named] tt))%list.
Proof.
  destruct (rejected_row_is_transparent (H := ascii_str) (stateless (healthy []))
              Create org_map1 [row_create] [row_named] row_unknown_org
              ∅ (<[("acme", "Admin") := "42"]> (<[("acme", "Admin") := ""]> ∅))
              (<[("acme", "Admin") := "42"]> (<[("acme", "Admin") := ""]> ∅))
              tt tt tt [Succeeded] UnknownTenant
              (snd (run_rows (H := ascii_str) (stateless (healthy [])) Create org_map1 ∅
                      [row_create] tt))
              [Log (Err_UnknownOrg "globex")])
    as (With & _ & _).
  - vm_compute. reflexivity.
  - vm_compute. reflexivity.
  - right. reflexivity.
  - change [row_create; row_unknown_org; row_named]
      with ([row_create] ++ row_unknown_org :: [row_named])%list.
    rewrite With.
    now destruct (run_rows _ _ _ _ [row_named] tt) as [[[[os d2]|x] w2] t2].
Defined.

Lemma secret_is_read_once_witness :
  lambda_handler (H := ascii_str) (stateless (healthy [row_create])) [] tt
    = (Return [], tt, [])
  /\ exists t' : list event,
       snd (lambda_handler (H := ascii_str) (stateless (healthy [row_create]))
              [record_create; record_delete] tt) = Call GetSecretValue :: t'
       /\ count is_get_secret t' = 0.
Proof.
  destruct (secret_is_read_once (H := ascii_str) (stateless (healthy [row_create]))
              [] tt) as [Empty _].
  destruct (secret_is_read_once (H := ascii_str) (stateless (healthy [row_create]))
              [record_create; record_delete] tt) as [_ Some_].
  split; [exact (Empty eq_refl)|].
  destruct (Some_ ltac:(discriminate)) as (t' & E & Z0 & _).
  exists t'. split; [exact E | exact Z0].
Defined.


Lemma unreadable_source_stops_the_handler_witness :
  run_records (H := ascii_str) (stateless s3_down) org_map1 ∅
      [record_create; record_delete] tt
    = (Raise (CallError (GetObject "inbox" "in/create_user.csv")), tt,
       [Call (GetObject "inbox" "in/create_user.csv")]).
Proof.
  apply (unreadable_source_stops_the_handler (H := ascii_str) (stateless s3_down)
           org_map1 ∅ record_create [record_delete] tt tt Create);
    reflexivity.
Defined.

Lemma role_cache_survives_a_file_witness :
  exists d' : gmap (string * string) string,
    fst (fst (process_record (H := ascii_str) (stateless (healthy [row_create]))
                org_map1 {[ ("acme", "admin") := "42" ]} record_create tt))
      = Return ([Succeeded], d')
    /\ cached d' ("acme", "admin") = "42"
    /\ resolve_role (H := ascii_str) (stateless (healthy [row_create])) acme "acme"
         "admin" d' tt
       = (Return (Some "42", d'), tt, []).
Proof.
  destruct (process_record (H := ascii_str) (stateless (healthy [row_create]))
              org_map1 {[ ("acme", "admin") := "42" ]} record_create tt)
    as [[[[os d']|x] w'] t] eqn:P; [|vm_compute in P; discriminate].
  assert (os = [Succeeded]) as -> by (vm_compute in P; congruence).
  exists d'. split; [reflexivity|].
  destruct (role_cache_survives_a_file (H := ascii_str) (stateless (healthy [row_create]))
              org_map1 {[ ("acme", "admin") := "42" ]} d' record_create tt w'
              [Succeeded] t "acme" "admin" "42" P)
    as [K Hit]; [vm_compute; reflexivity | discriminate |].
  split; [exact K | exact (Hit acme tt)].
Defined.

Lemma get_role_id_result_witness :
  _get_role_id (H := ascii_str) (stateless (healthy [])) acme "ADMIN" tt
    = (Return "42", tt, [Call (ListRoles acme)])
  /\ _get_role_id (H := ascii_str) (stateless (roles_down [])) acme "ADMIN" tt
    = (Raise (RuntimeError 503), tt, [Call (ListRoles acme)])
  /\ _get_role_id (H := ascii_str) (stateless (healthy [])) acme "Owner" tt
    = (Raise (KeyError "Owner"), tt, [Call (ListRoles acme)]).
Proof.
  split; [|split].
  - apply (proj1 (get_role_id_result (H := ascii_str) (stateless (healthy []))
                    acme "ADMIN" tt)).
    exists 200%Z, [read_only], [], admin.
    repeat split; try reflexivity; try lia.
    repeat constructor. vm_compute. discriminate.
  - apply (proj1 (proj2 (get_role_id_result (H := ascii_str) (stateless (roles_down []))
                           acme "ADMIN" tt)) 503%Z [] tt); [reflexivity | lia].
  - apply (proj2 (proj2 (get_role_id_result (H := ascii_str) (stateless (healthy []))
                           acme "Owner" tt)) 200%Z roles1 tt); [reflexivity | lia |].
    repeat constructor; vm_compute; discriminate.
Defined.

Lemma create_call_name_witness :
  exists t2 : list event,
    snd (process_row (H := ascii_str) (stateless (healthy [])) Create org_map1 ∅
           row_named tt)
    = ([Call (ListRoles acme)] ++ Call (CreateUser acme "Bea" "b@x.com" "42") :: t2)%list.
Proof.
  destruct (create_call_name (H := ascii_str) (stateless (healthy [])) org_map1 ∅
              (<[("acme", "admin") := "42"]> (<[("acme", "admin") := ""]> ∅))
              row_named tt tt " b@x.com " "acme" "admin" acme "42"
              [Call (ListRoles acme)])
    as (n & t2 & E & _ & N);
    try reflexivity; try (vm_compute; discriminate).
  exists t2. rewrite E. vm_compute in N. now rewrite N.
Defined.

Lemma mode_of_suffix_witness :
  mode_of "2024/renamed-create_user.csv" = Some Create
  /\ mode_of "Create_User.csv" = None.
Proof.
  destruct (mode_of_suffix "2024/renamed-create_user.csv") as (C & _ & _).
  destruct (mode_of_suffix "Create_User.csv") as (_ & _ & N).
  split.
  - apply C. exists "2024/renamed-". reflexivity.
  - apply N. split; intros p E.
    + assert (X : endswith "Create_User.csv" "create_user.csv" = true)
        by (apply endswith_iff; eauto).
      vm_compute in X. discriminate.
    + assert (X : endswith "Create_User.csv" "delete_user.csv" = true)
        by (apply endswith_iff; eauto).
      vm_compute in X. discriminate.
Defined.

End Provisioning_more.

(** * More on the pending-invite report *)

Module Pending_more.
Import Pending Pending_facts.

Lemma print_users_all (users : list pending_user) :
  Forall (fun u => email u <> None) users ->
  print_users users = (Some tt, omap format_user users).
Proof.
  induction 1 as [|u users Hu _ IH]; [reflexivity|].
  cbn [print_users]. rewrite IH.
  change (omap format_user (u :: users))
    with (match format_user u with
          | Some line => line :: omap format_user users
          | None => omap format_user users
          end).
  destruct (format_user u) as [line|] eqn:F; [reflexivity|].
  unfold format_user in F. destruct (email u); [discriminate | congruence].
Qed.

Lemma omap_length_le {A B} (f : A -> option B) (l : list A) :
  length (omap f l) <= length l.
Proof.
  induction l as [|x l IH]; [reflexivity|].
  change (omap f (x :: l))
    with (match f x with Some y => y :: omap f l | None => omap f l end).
  destruct (f x); cbn; lia.
Qed.

Lemma print_users_none (users : list pending_user) :
  Exists (fun u => email u = None) users -> fst (print_users users) = None.
Proof.
  induction 1 as [u users Hu|u users _ IH]; cbn [print_users]; unfold format_user.
  - now rewrite Hu.
  - destruct (email u) as [e|]; [|reflexivity].
    now destruct (print_users users) as [r lines].
Qed.

(** X14: a line of the report cannot be made for a user without an
    email (the format with a width fails on [None]), and nothing guards
    it: the report is printed and returned exactly when every pending
    user of every tenant has an email. *)
Theorem report_needs_every_email (report : list (string * list pending_user)) :
  (Forall (fun entry => Forall (fun u => email u <> None) (snd entry)) report ->
   fst (print_report report) = Some tt)
  /\ (Exists (fun entry => Exists (fun u => email u = None) (snd entry)) report ->
      fst (print_report report) = None).
Proof.
  split.
  - induction 1 as [|[org users] report Hu _ IH]; [reflexivity|].
    cbn [print_report]. cbn in Hu.
    destruct users as [|u users].
    + now destruct (print_report report) as [r lines].
    + rewrite (print_users_all (u :: users) Hu).
      now destruct (print_report report) as [r lines].
  - induction 1 as [[org users] report Hu|[org users] report _ IH]; cbn [print_report].
    + cbn in Hu. destruct users as [|u users]; [inversion Hu|].
      pose proof (print_users_none (u :: users) Hu) as N.
      now destruct (print_users (u :: users)) as [[[]|] lines].
    + destruct users as [|u users].
      * now destruct (print_report report) as [r lines].
      * destruct (print_users (u :: users)) as [[[]|] lines]; [|reflexivity].
        now destruct (print_report report) as [r lines'].
Qed.

(** X15: what is printed for a report whose users all have an email:
    for each tenant, in the order of the report, the line [=== org ===]
    and then one line per pending user, or the "no pending user" line
    when the tenant has none. *)
Theorem printed_report_blocks (report : list (string * list pending_user)) :
  Forall (fun entry => Forall (fun u => email u <> None) (snd entry)) report ->
  print_report report =
    (Some tt,
     flat_map (fun entry =>
                 ("=== " ++ fst entry ++ " ===")
                   :: match snd entry with
                      | [] => [NO_PENDING]
                      | users => omap format_user users
                      end) report).
Proof.
  induction 1 as [|[org users] report Hu _ IH]; [reflexivity|].
  cbn [print_report flat_map fst snd]. cbn in Hu. rewrite IH.
  destruct users as [|u users]; [reflexivity|].
  now rewrite (print_users_all (u :: users) Hu).
Qed.

Section More.
Context `{PyStr}.
Variable DATADOG_SITE : string.
Context {World : Type}.
Variable respond : World -> request -> response * World.

(** ** Requests *)

Lemma list_users_from_requests (fuel : nat) (k : keys) :
  forall (url : option string) (w : World),
  Forall (fun r => req_params r = None /\ req_keys r = k)
         (requests (snd (list_users_from respond fuel k url None w))).
Proof.
  induction fuel as [|fuel IH]; intros url w; cbn [list_users_from].
  - destruct url as [u|]; [|constructor]. destruct (negb (truthy u)); constructor.
  - destruct url as [u|]; [|constructor].
    destruct (negb (truthy u)); [constructor|].
    destruct (respond w _) as [[|data next] w1]; [repeat constructor|].
    specialize (IH next w1).
    destruct (list_users_from respond fuel k next None w1) as [[st w2] t].
    cbn in *. rewrite requests_app, requests_Yield. cbn.
    constructor; [split; reflexivity | exact IH].
Qed.

(** X16: the page size and the status filter are sent with the first
    request only: it goes to the [/api/v2/users] address of the site
    with the parameters [(100, "Pending")], and every later request of
    the listing has no parameters (they are in the link that is
    followed); all the requests of a listing carry the keys of its
    tenant. *)
Theorem only_first_request_has_params (fuel : nat) (k : keys) (w : World) :
  exists rest : list request,
    requests (snd (list_users DATADOG_SITE respond (S fuel) k w))
      = {| req_url := first_url DATADOG_SITE; req_keys := k;
           req_params := Some (PAGE_SIZE, "Pending") |} :: rest
    /\ Forall (fun r => req_params r = None /\ req_keys r = k) rest.
Proof.
  unfold list_users. cbn [list_users_from].
  assert (truthy (first_url DATADOG_SITE) = true) as -> by reflexivity.
  cbn [negb].
  destruct (respond w _) as [[|data next] w1].
  - exists []. split; [reflexivity | constructor].
  - pose proof (list_users_from_requests fuel k next w1) as R.
    destruct (list_users_from respond fuel k next None w1) as [[st w2] t].
    cbn in *. rewrite requests_app, requests_Yield. cbn. eauto.
Qed.

(** X17: a link that is the empty string ends the listing as a missing
    link does: the records of the page are yielded and no further request
    is made. *)
Theorem empty_next_link_stops (fuel : nat) (k : keys) (u : string)
    (p : option (Z * string)) (w w1 : World) (data : list user_json) :
  u <> "" ->
  respond w {| req_url := u; req_keys := k; req_params := p |}
    = (Page data (Some ""), w1) ->
  list_users_from respond (S fuel) k (Some u) p w =
    (Return tt, w1,
     (Request {| req_url := u; req_keys := k; req_params := p |} :: map Yield data)%list).
Proof.
  intros T E.
  rewrite (list_users_from_page respond fuel k u p w w1 data (Some "") T E).
  rewrite (list_users_from_stop respond fuel k (Some "") None w1 eq_refl).
  now rewrite app_nil_r.
Qed.

(** ** The report *)

(** X18: the users kept for a tenant are the yielded users that have
    attributes and whose status is [pending] in lower case, in the order
    of the listing, each cut down to its id, email and name; a user
    without attributes, without a status or with another status is left
    out. *)
Theorem report_keeps_pending_users (fuel : nat) (org : string) (k : keys)
    (w w1 : World) (users : list pending_user) (t : list event) :
  fetch_invite_pending DATADOG_SITE respond fuel org k w = (Return users, w1, t) ->
  users = omap keep_pending (yields t)
  /\ length users <= length (yields t)
  /\ forall p : pending_user,
       p ∈ users <->
       exists (u : user_json) (a : attributes),
         u ∈ yields t
         /\ u_attributes u = Some a
         /\ lower (default "" (attr_status a)) = "pending"
         /\ p = {| id := u_id u; email := attr_email a; name := attr_name a |}.
Proof.
  unfold fetch_invite_pending.
  destruct (list_users DATADOG_SITE respond fuel k w) as [[[[]| |] w2] t2];
    try discriminate.
  intros [= <- <- <-]. split; [reflexivity|]. split; [apply omap_length_le|].
  intros p. rewrite list_elem_of_omap. unfold keep_pending. split.
  - intros (u & In_u & Keep). destruct (u_attributes u) as [a|] eqn:Ea; [|discriminate].
    destruct (String.eqb_spec (lower (default "" (attr_status a))) "pending") as [P|];
      [|discriminate].
    injection Keep as <-. exists u, a. repeat split; assumption.
  - intros (u & a & In_u & Ea & P & ->). exists u. split; [exact In_u|].
    rewrite Ea, P. reflexivity.
Qed.

Lemma fetch_all_orgs (fuel : nat) (orgs : list (string * keys)) :
  forall (w w1 : World) (report : list (string * list pending_user)) (t : list event),
  fetch_all DATADOG_SITE respond fuel orgs w = (Return report, w1, t) ->
  map fst report = map fst orgs.
Proof.
  induction orgs as [|[org k] orgs IH]; intros w w1 report t; cbn [fetch_all].
  - now intros [= <- _ _].
  - destruct (fetch_invite_pending DATADOG_SITE respond fuel org k w)
      as [[[users| |] wa] ta]; try discriminate.
    destruct (fetch_all DATADOG_SITE respond fuel orgs wa) as [[[rest| |] wb] tb] eqn:F;
      try discriminate.
    intros [= <- _ _]. cbn. f_equal. exact (IH wa wb rest tb F).
Qed.

(** X19: when the handler returns, the status code is 200 and the body
    has exactly one entry per tenant of the secret, in the order of the
    secret, also for the tenants with no pending user; the first line
    printed is the title. *)
Theorem reply_has_every_tenant (fuel : nat) (orgs : list (string * keys))
    (w w1 : World) (r : reply) (t : list event) :
  lambda_handler DATADOG_SITE respond fuel orgs w = (Return r, w1, t) ->
  statusCode r = 200%Z
  /\ map fst (body r) = map fst orgs
  /\ exists lines : list string, prints t = "Invite Pending Users" :: lines.
Proof.
  unfold lambda_handler.
  pose proof (fetch_all_prints DATADOG_SITE respond fuel orgs w) as NoPrint.
  destruct (fetch_all DATADOG_SITE respond fuel orgs w) as [[[report| |] w2] t2] eqn:F;
    try discriminate.
  destruct (print_report report) as [[[]|] lines]; [|discriminate].
  intros [= <- <- <-]. cbn in NoPrint. split; [reflexivity|].
  split; [exact (fetch_all_orgs fuel orgs w w2 report t2 F)|].
  exists lines. rewrite prints_app, NoPrint. cbn. f_equal.
  clear. induction lines as [|l lines IH]; cbn; [reflexivity | now rewrite IH].
Qed.

End More.

(** ** The properties at a concrete directory *)

Import Pending_examples More_pages.

Lemma report_needs_every_email_witness :
  fst (print_report [("first", [pending_alice]); ("second", [])]) = Some tt
  /\ fst (print_report [("first", [pending_alice]); ("second", [pending_nobody])]) = None.
Proof.
  split.
  - apply (proj1 (report_needs_every_email
                    [("first", [pending_alice]); ("second", [])])).
    repeat constructor. discriminate.
  - apply (proj2 (report_needs_every_email
                    [("first", [pending_alice]); ("second", [pending_nobody])])).
    right. left. left. reflexivity.
Defined.

Lemma printed_report_blocks_witness :
  print_report [("first", [pending_alice; pending_carol; More_pages.pending_taro]);
                ("second", [])]
  = (Some tt,
     ["=== first ===";
      "alice@x.com                         Alice                     id:1";
      "carol@x.com                         -                         id:3";
      "taro@x.com                          山田太郎                      id:7";
      "=== second ===";
      NO_PENDING]).
Proof.
  rewrite (printed_report_blocks
             [("first", [pending_alice; pending_carol; More_pages.pending_taro]);
              ("second", [])]).
  - reflexivity.
  - repeat constructor; discriminate.
Defined.

Lemma empty_next_link_stops_witness :
  list_users_from (stateless one_page) 3 good (Some "https://api.test/users") None tt
  = (Return tt, tt,
     [Request {| req_url := "https://api.test/users"; req_keys := good;
                 req_params := None |};
      Yield alice]).
Proof.
  apply (empty_next_link_stops (stateless one_page) 2 good "https://api.test/users"
           None tt tt [alice]); [discriminate | reflexivity].
Defined.

Lemma report_keeps_pending_users_witness :
  pending_alice ∈ [pending_alice; pending_carol]
  <-> exists (u : user_json) (a : attributes),
        u ∈ [alice; bob; carol]
        /\ u_attributes u = Some a
        /\ Ascii_str.lower (default "" (attr_status a)) = "pending"
        /\ pending_alice
           = {| id := u_id u; email := attr_email a; name := attr_name a |}.
Proof.
  destruct (report_keeps_pending_users (H := ascii_str) site (stateless directory) 5
              "first" good tt tt [pending_alice; pending_carol]
              (snd (fetch_invite_pending (H := ascii_str) site (stateless directory) 5
                      "first" good tt)))
    as (_ & _ & In_report); [vm_compute; reflexivity|].
  exact (In_report pending_alice).
Defined.

Lemma reply_has_every_tenant_witness :
  exists (r : reply) (t : list event),
    lambda_handler (H := ascii_str) site (stateless directory) 5
        [("first", good); ("third", good)] tt = (Return r, tt, t)
    /\ statusCode r = 200%Z
    /\ map fst (body r) = ["first"; "third"].
Proof.
  destruct (lambda_handler (H := ascii_str) site (stateless directory) 5
              [("first", good); ("third", good)] tt) as [[[r| |] []] t] eqn:E;
    try (vm_compute in E; discriminate).
  exists r, t. split; [reflexivity|].
  destruct (reply_has_every_tenant (H := ascii_str) site (stateless directory) 5
              [("first", good); ("third", good)] tt tt r t E) as (S & B & _).
  split; [exact S | exact B].
Defined.

End Pending_more.

(** * The monitor export and import script *)

Module Monitors_facts.
Import Monitors.

Lemma monitor_calls_app (t1 t2 : list event) :
  calls (t1 ++ t2) = (calls t1 ++ calls t2)%list.
Proof.
  induction t1 as [|[c|m|m|m] t1 IH]; simpl; try exact IH.
  - reflexivity.
  - now rewrite IH.
Qed.

Lemma fetched_app (t1 t2 : list event) :
  fetched (t1 ++ t2) = (fetched t1 ++ fetched t2)%list.
Proof. unfold fetched. now rewrite monitor_calls_app, omap_app. Qed.

Lemma written_app (t1 t2 : list event) :
  written (t1 ++ t2) = (written t1 ++ written t2)%list.
Proof. unfold written. now rewrite monitor_calls_app, omap_app. Qed.

Lemma read_app (t1 t2 : list event) :
  read (t1 ++ t2) = (read t1 ++ read t2)%list.
Proof. unfold read. now rewrite monitor_calls_app, omap_app. Qed.

Lemma posted_app (t1 t2 : list event) :
  posted (t1 ++ t2) = (posted t1 ++ posted t2)%list.
Proof. unfold posted. now rewrite monitor_calls_app, omap_app. Qed.

(** ** [sanitize_monitor] *)

Lemma sanitize_no_read_only (p : payload) :
  Forall (fun kv => kv.1 ∉ READ_ONLY_KEYS) (sanitize_monitor p).
Proof.
  unfold sanitize_monitor, payload. apply Forall_forall. intros kv In_kv.
  now apply list_elem_of_filter in In_kv.
Qed.

(** X20: a sanitized monitor holds none of the twelve read-only keys,
    keeps every other entry of the payload with its value, and keeps the
    entries in their order. *)
Theorem sanitize_removes_read_only (p : payload) :
  Forall (fun kv => kv.1 ∉ READ_ONLY_KEYS) (sanitize_monitor p)
  /\ (forall (k : string) (v : json),
        ((k, v) ∈ sanitize_monitor p) <-> (k ∉ READ_ONLY_KEYS) /\ ((k, v) ∈ p))
  /\ sublist (sanitize_monitor p) p.
Proof.
  unfold sanitize_monitor, payload. split; [|split].
  - apply Forall_forall. intros kv In_kv. now apply list_elem_of_filter in In_kv.
  - intros k v. now rewrite list_elem_of_filter.
  - apply sublist_filter.
Qed.

(** X21: sanitizing twice is sanitizing once, and a payload without
    read-only keys is left as it is: an exported file can be imported
    again and is posted unchanged. *)
Theorem sanitize_is_idempotent (p : payload) :
  sanitize_monitor (sanitize_monitor p) = sanitize_monitor p
  /\ (Forall (fun kv => kv.1 ∉ READ_ONLY_KEYS) p -> sanitize_monitor p = p).
Proof.
  assert (Id : forall q : payload,
             Forall (fun kv => kv.1 ∉ READ_ONLY_KEYS) q -> sanitize_monitor q = q).
  { unfold sanitize_monitor, payload. induction 1 as [|kv q Hkv _ IH]; [reflexivity|].
    rewrite filter_cons_True by exact Hkv. now rewrite IH. }
  split; [|apply Id]. apply Id. unfold sanitize_monitor, payload.
  apply Forall_forall. intros kv In_kv. now apply list_elem_of_filter in In_kv.
Qed.

Section Script.
Context `{PyStr} `{PyInt}.
Context {World : Type} `{Env World}.

(** ** The keys *)

Lemma env_or_input_calls (var prompt : string) (w : World) :
  let t := snd (env_or_input var prompt w) in
  calls t = [] \/ calls t = [Input prompt].
Proof.
  unfold env_or_input. destruct (getenv var) as [v|]; [destruct (truthy v)|];
    try (left; reflexivity); destruct (input w prompt); right; reflexivity.
Qed.

Lemma get_api_keys_quiet (w : World) :
  let t := snd (get_api_keys w) in
  fetched t = [] /\ written t = [] /\ read t = [] /\ posted t = [].
Proof.
  unfold get_api_keys.
  pose proof (env_or_input_calls "DD_API_KEY" "Datadog API Key: " w) as A.
  destruct (env_or_input "DD_API_KEY" "Datadog API Key: " w) as [[[a|] w1] t1];
    cbn in A.
  - pose proof (env_or_input_calls "DD_APP_KEY" "Datadog Application Key: " w1) as B.
    destruct (env_or_input "DD_APP_KEY" "Datadog Application Key: " w1)
      as [[[b|] w2] t2]; cbn in B; cbn;
      unfold fetched, written, read, posted; rewrite monitor_calls_app;
      destruct A as [-> | ->]; destruct B as [-> | ->]; repeat split.
  - cbn. unfold fetched, written, read, posted.
    destruct A as [-> | ->]; repeat split.
Qed.

(** X22: the keys come from the environment when both variables are set
    to a non-empty text, and then nothing is asked; a variable that is
    unset or set to the empty text is asked at the prompt, the API key
    first.  The keys are stripped of surrounding blanks in both cases. *)
Theorem keys_from_environment_or_prompt (w : World) :
  (forall a b : string,
     getenv "DD_API_KEY" = Some a -> a <> "" ->
     getenv "DD_APP_KEY" = Some b -> b <> "" ->
     get_api_keys w = (Some (strip a, strip b), w, []))
  /\ (forall (a b : string) (w1 w2 : World),
        getenv "DD_API_KEY" = None \/ getenv "DD_API_KEY" = Some "" ->
        getenv "DD_APP_KEY" = None \/ getenv "DD_APP_KEY" = Some "" ->
        input w "Datadog API Key: " = (Some a, w1) ->
        input w1 "Datadog Application Key: " = (Some b, w2) ->
        get_api_keys w =
          (Some (strip a, strip b), w2,
           [Call (Input "Datadog API Key: ");
            Call (Input "Datadog Application Key: ")])).
Proof.
  split.
  - intros a b Ea Ta Eb Tb. apply truthy_true in Ta, Tb.
    unfold get_api_keys, env_or_input. now rewrite Ea, Ta, Eb, Tb.
  - intros a b w1 w2 Ea Eb Ia Ib. unfold get_api_keys, env_or_input.
    destruct Ea as [-> | ->], Eb as [-> | ->]; cbn; now rewrite Ia, Ib.
Qed.

(** ** Export *)

Lemma export_row_fetched (k : keys) (row : list string) (w : World) :
  fetched (snd (export_row k row w))
  = match head row ≫= parse_int with Some id => [id] | None => [] end.
Proof.
  unfold export_row. destruct row as [|cell row]; [reflexivity|]. cbn [head mbind option_bind].
  destruct (parse_int cell) as [id|]; [|reflexivity].
  destruct (get_monitor w k id) as [[m|] w1]; [|reflexivity].
  destruct (write_json w1 _ _) as [[] w2]; reflexivity.
Qed.

Lemma export_row_written (k : keys) (row : list string) (w : World) :
  let t := snd (export_row k row w) in
  written t = []
  \/ exists (id : Z) (m : payload),
       written t = [((show_int id ++ ".json")%string, sanitize_monitor m)]
       /\ fetched t = [id].
Proof.
  unfold export_row. destruct row as [|cell row]; [left; reflexivity|].
  destruct (parse_int cell) as [id|]; [|left; reflexivity].
  destruct (get_monitor w k id) as [[m|] w1]; [|left; reflexivity].
  right. exists id, m. destruct (write_json w1 _ _) as [[] w2]; split; reflexivity.
Qed.

Lemma export_rows_fetched (k : keys) (rows : list (list string)) :
  forall w : World,
  fetched (snd (export_rows k rows w)) = omap (fun row => head row ≫= parse_int) rows.
Proof.
  induction rows as [|row rows IH]; intros w; cbn [export_rows]; [reflexivity|].
  pose proof (export_row_fetched k row w) as R.
  destruct (export_row k row w) as [w1 t1]. specialize (IH w1).
  destruct (export_rows k rows w1) as [w2 t2]. cbn [snd] in *.
  rewrite fetched_app, R, IH.
  change (omap (fun row0 => head row0 ≫= parse_int) (row :: rows))
    with (match head row ≫= parse_int with
          | Some id => id :: omap (fun row0 => head row0 ≫= parse_int) rows
          | None => omap (fun row0 => head row0 ≫= parse_int) rows
          end).
  now destruct (head row ≫= parse_int).
Qed.

Lemma export_rows_written (k : keys) (rows : list (list string)) :
  forall w : World,
  let t := snd (export_rows k rows w) in
  Forall (fun pd => exists id : Z,
            pd.1 = (show_int id ++ ".json")%string
            /\ id ∈ fetched t
            /\ Forall (fun kv => kv.1 ∉ READ_ONLY_KEYS) pd.2)
         (written t)
  /\ length (written t) <= length (fetched t).
Proof.
  induction rows as [|row rows IH]; intros w; cbn [export_rows].
  - split; [constructor | reflexivity].
  - pose proof (export_row_written k row w) as R.
    destruct (export_row k row w) as [w1 t1]. specialize (IH w1).
    destruct (export_rows k rows w1) as [w2 t2]. cbn [snd] in *.
    destruct IH as [IH L]. rewrite written_app, fetched_app, !length_app. split.
    + apply Forall_app. split.
      * destruct R as [-> | (id & m & -> & F)]; [constructor|].
        repeat constructor. exists id. split; [reflexivity|]. split.
        -- rewrite F. apply elem_of_app. left. apply list_elem_of_singleton. reflexivity.
        -- apply sanitize_no_read_only.
      * eapply Forall_impl; [exact IH|]. intros pd (id & P & I & S).
        exists id. repeat split; try assumption. apply elem_of_app. now right.
    + destruct R as [-> | (id & m & -> & ->)]; cbn; lia.
Qed.


(** X24: every file that [export_monitors] writes is named after the
    identifier of a monitor fetched in the same run, [<id>.json], and
    holds that monitor without any read-only key (the comment above
    [READ_ONLY_KEYS] says they are kept at export; the code removes them
    there too); no file is written for a monitor that was not fetched. *)
Theorem exported_files_are_sanitized (csv_file : string) (w : World) :
  let t := snd (export_monitors csv_file w) in
  Forall (fun pd => exists id : Z,
            pd.1 = (show_int id ++ ".json")%string
            /\ id ∈ fetched t
            /\ Forall (fun kv => kv.1 ∉ READ_ONLY_KEYS) pd.2)
         (written t)
  /\ length (written t) <= length (fetched t).
Proof.
  pose proof (get_api_keys_quiet w) as Q. unfold export_monitors.
  destruct (get_api_keys w) as [[[k|] w1] t1]; cbn [snd] in Q;
    destruct Q as (Qf & Qw & _ & _).
  - destruct (open_csv w1 csv_file) as [[rows|] w2].
    + destruct (bad_header rows).
      * cbn [snd]. rewrite written_app, fetched_app, Qw, Qf. cbn. split; [constructor|lia].
      * pose proof (export_rows_written k (tail rows) w2) as E.
        destruct (export_rows k (tail rows) w2) as [w3 t3]. cbn [snd] in *.
        change (Call (OpenCsv csv_file) :: t3)%list
          with ([Call (OpenCsv csv_file)] ++ t3)%list.
        rewrite !written_app, !fetched_app, Qw, Qf. exact E.
    + cbn [snd]. rewrite written_app, fetched_app, Qw, Qf. cbn. split; [constructor|lia].
  - cbn [snd]. rewrite Qw, Qf. split; [constructor|reflexivity].
Qed.

(** ** Import *)

Lemma import_file_calls (k : keys) (file_path : string) (w : World) :
  let t := snd (import_file k file_path w) in
  read t = [file_path]
  /\ (posted t = [] \/ exists p : payload, posted t = [sanitize_monitor p]).
Proof.
  unfold import_file. destruct (read_json w file_path) as [[p|] w1].
  - destruct (create_monitor w1 k _) as [[id|] w2]; (split; [reflexivity|]);
      right; exists p; reflexivity.
  - split; [reflexivity | left; reflexivity].
Qed.

Lemma import_files_calls (k : keys) (files : list string) :
  forall w : World,
  let t := snd (import_files k files w) in
  read t = files
  /\ length (posted t) <= length files
  /\ Forall (Forall (fun kv => kv.1 ∉ READ_ONLY_KEYS)) (posted t).
Proof.
  induction files as [|f files IH]; intros w; cbn [import_files].
  - repeat split; constructor.
  - pose proof (import_file_calls k f w) as (R & P).
    destruct (import_file k f w) as [w1 t1]. specialize (IH w1).
    destruct (import_files k files w1) as [w2 t2]. cbn [snd] in *.
    destruct IH as (IR & IL & IF). rewrite read_app, posted_app, length_app, R, IR.
    split; [reflexivity|]. split.
    + destruct P as [-> | (p & ->)]; cbn; lia.
    + apply Forall_app. split; [|exact IF].
      destruct P as [-> | (p & ->)]; repeat constructor.
      apply sanitize_no_read_only.
Qed.

(** X25: [import_monitors] asks for the keys only when the pattern
    matches a file: with no file it reports it and returns after the
    [glob] alone.  With files and keys, it reads every file once, in the
    order of [glob], whether or not an earlier file failed, and posts at
    most one monitor per file. *)
Theorem import_reads_every_file (pattern : string) (w w1 : World)
    (files : list string) :
  glob w pattern = (files, w1) ->
  (files = [] ->
   import_monitors pattern w =
     (Returned, w1,
      [Call (Glob pattern); Stderr (NoFiles pattern); LogError (NoFiles pattern)]))
  /\ (forall (k : keys) (w2 : World) (t2 : list event),
        files <> [] ->
        get_api_keys w1 = (Some k, w2, t2) ->
        exists (w3 : World) (t : list event),
          import_monitors pattern w = (Returned, w3, t)
          /\ read t = files
          /\ length (posted t) <= length files).
Proof.
  intros G. split.
  - intros ->. unfold import_monitors. now rewrite G.
  - intros k w2 t2 NE K. unfold import_monitors. rewrite G.
    destruct files as [|f files]; [congruence|]. rewrite K.
    pose proof (get_api_keys_quiet w1) as Q. rewrite K in Q. cbn [snd] in Q.
    destruct Q as (_ & _ & Qr & Qp).
    pose proof (import_files_calls k (f :: files) w2) as (R & L & _).
    destruct (import_files k (f :: files) w2) as [w3 t3]. cbn [snd] in R, L.
    do 2 eexists. split; [reflexivity|].
    change (Call (Glob pattern) :: t2 ++ t3)%list
      with ([Call (Glob pattern)] ++ t2 ++ t3)%list.
    rewrite !read_app, !posted_app, Qr, Qp. cbn. split; [exact R | exact L].
Qed.

(** X26: no monitor is ever posted with a read-only key: every body
    sent by [import_monitors] is free of the twelve keys, whatever the
    files hold. *)
Theorem posted_monitors_are_sanitized (pattern : string) (w : World) :
  Forall (Forall (fun kv => kv.1 ∉ READ_ONLY_KEYS))
         (posted (snd (import_monitors pattern w))).
Proof.
  unfold import_monitors. destruct (glob w pattern) as [files w1].
  destruct files as [|f files]; [constructor|].
  pose proof (get_api_keys_quiet w1) as Q.
  destruct (get_api_keys w1) as [[[k|] w2] t2]; cbn [snd] in Q;
    destruct Q as (_ & _ & _ & Qp).
  - pose proof (import_files_calls k (f :: files) w2) as (_ & _ & F).
    destruct (import_files k (f :: files) w2) as [w3 t3]. cbn [snd] in *.
    change (Call (Glob pattern) :: t2 ++ t3)%list
      with ([Call (Glob pattern)] ++ t2 ++ t3)%list.
    rewrite !posted_app, Qp. exact F.
  - cbn [snd].
    change (Call (Glob pattern) :: t2)%list with ([Call (Glob pattern)] ++ t2)%list.
    rewrite posted_app, Qp. constructor.
Qed.

End Script.

(** ** The properties at a concrete organisation *)

Import Monitors_examples More_monitors.

Lemma sanitize_is_idempotent_witness :
  sanitize_monitor cpu_monitor
    = [("name", JStr "CPU high"); ("type", JStr "metric alert");
       ("query", JStr "avg:cpu > 90")]
  /\ sanitize_monitor (sanitize_monitor cpu_monitor) = sanitize_monitor cpu_monitor.
Proof.
  split; [vm_compute; reflexivity|].
  destruct (sanitize_is_idempotent (sanitize_monitor cpu_monitor)) as [_ Id].
  apply Id. vm_compute. repeat constructor; vm_compute; discriminate.
Defined.

Lemma keys_from_environment_or_prompt_witness :
  get_api_keys (H := ascii_str) (H1 := office) tt = (Some ("api", "app"), tt, [])
  /\ get_api_keys (H := ascii_str) (H1 := console) tt
     = (Some ("typed-api", "typed-app"), tt,
        [Call (Input "Datadog API Key: "); Call (Input "Datadog Application Key: ")]).
Proof.
  split.
  - apply (proj1 (keys_from_environment_or_prompt (H := ascii_str) (H1 := office) tt)
             " api " "app"); first [reflexivity | discriminate].
  - apply (proj2 (keys_from_environment_or_prompt (H := ascii_str) (H1 := console) tt)
             "typed-api " " typed-app" tt tt);
      first [left; reflexivity | reflexivity].
Defined.


Lemma import_reads_every_file_witness :
  import_monitors (H := ascii_str) (H1 := office) "*.yaml" tt
    = (Returned, tt,
       [Call (Glob "*.yaml"); Stderr (NoFiles "*.yaml"); LogError (NoFiles "*.yaml")])
  /\ exists t : list event,
       import_monitors (H := ascii_str) (H1 := office) "*.json" tt = (Returned, tt, t)
       /\ read t = ["123.json"; "broken.json"]
       /\ length (posted t) <= 2.
Proof.
  split.
  - apply (proj1 (import_reads_every_file (H := ascii_str) (H1 := office)
                    "*.yaml" tt tt [] eq_refl) eq_refl).
  - destruct (proj2 (import_reads_every_file (H := ascii_str) (H1 := office)
                       "*.json" tt tt ["123.json"; "broken.json"] eq_refl)
                ("api", "app") tt [])
      as ([] & t & E & R & L); [discriminate | reflexivity |].
    exists t. split; [exact E|]. split; [exact R | exact L].
Defined.

End Monitors_facts.
